(** * FlagScale launcher: hostfile parsing, resource negotiation and dispatch

    A shallow embedding of [flagscale/launcher/runner.py].

    Conventions of the embedding.
    - A Python [str] is a [string] whose characters are the code points
      below 256; the character classes of [str.strip], [re] and [int]
      are the ones CPython has on these code points.
    - Python [int] is [Z] (unbounded); [int] of a string refuses more
      digits than [sys.get_int_max_str_digits()], 4300 unless changed.
    - An exception is a value of [exn]; a call that may raise returns an
      [outcome].  Code with side effects runs in the monad [M], whose
      state [world] holds the file store, the processes spawned so far
      and what was printed; the state reached before an exception is kept.
    - [logger] calls do not influence control flow and are not modelled. *)

From Stdlib Require Import String Ascii ZArith List Bool Lia DecimalString.
From stdpp Require Import gmap strings list.
Import ListNotations.

#[local] Open Scope string_scope.
#[local] Open Scope Z_scope.

(** String concatenation unfolds on a literal or a constructor. *)
#[local] Arguments String.append !s1 s2 : simpl nomatch.

(* ===================================================================== *)
(** ** Python values and exceptions *)
(* ===================================================================== *)

Module Py.

(** The scalar values a configuration entry or an argument may hold. *)
Inductive value : Type :=
| VBool (b : bool)
| VInt (n : Z)
| VStr (s : string).

Inductive exn : Type :=
| ValueError (msg : string)
| AssertionError
| TypeError
| AttributeError
| IndexError
| CalledProcessError (returncode : Z) (cmd : string)
| SystemExit (code : Z).

Inductive outcome (A : Type) : Type :=
| Ok (a : A)
| Raise (e : exn).
Arguments Ok {A} a.
Arguments Raise {A} e.

Definition obind {A B} (o : outcome A) (f : A -> outcome B) : outcome B :=
  match o with
  | Ok a => f a
  | Raise e => Raise e
  end.

Definition is_ok {A} (o : outcome A) : bool :=
  match o with Ok _ => true | Raise _ => false end.

(** Truth value of an object, as tested by [if x:]. *)
Definition truthy (v : value) : bool :=
  match v with
  | VBool b => b
  | VInt n => negb (n =? 0)
  | VStr s => negb (String.eqb s EmptyString)
  end.

(** Characters. *)
Definition TAB : ascii := ascii_of_nat 9.
Definition LF : ascii := ascii_of_nat 10.
Definition CR : ascii := ascii_of_nat 13.
Definition DQ : ascii := ascii_of_nat 34.
Definition SQ : ascii := ascii_of_nat 39.
Definition BSL : ascii := ascii_of_nat 92.

Definition chr (c : ascii) : string := String c EmptyString.

(** [str.isspace] on one character: TAB, LF, VT, FF, CR, the four
    separators FS, GS, RS, US, the blank, NEL (133) and the no-break
    space (160).  The class [\s] of a [str] pattern is the same, and
    [\S] is its complement. *)
Definition isspace (c : ascii) : bool :=
  let n := nat_of_ascii c in
  ((9 <=? n)%nat && (n <=? 13)%nat) || ((28 <=? n)%nat && (n <=? 32)%nat) ||
  (n =? 133)%nat || (n =? 160)%nat.

Definition nonspace (c : ascii) : bool := negb (isspace c).

(** The class [\d] of a [str] pattern, and the digits [int] reads:
    below 256 the decimal digits are [0] to [9]. *)
Definition isdigit (c : ascii) : bool :=
  let n := nat_of_ascii c in (48 <=? n)%nat && (n <=? 57)%nat.

Definition digit_val (c : ascii) : Z := Z.of_nat (nat_of_ascii c) - 48.

(** [s.lstrip()], [s.rstrip()], [s.strip()]. *)
Fixpoint lstrip (s : string) : string :=
  match s with
  | EmptyString => EmptyString
  | String c r => if isspace c then lstrip r else s
  end.

Fixpoint rstrip (s : string) : string :=
  match s with
  | EmptyString => EmptyString
  | String c r =>
      match rstrip r with
      | EmptyString => if isspace c then EmptyString else chr c
      | r' => String c r'
      end
  end.

Definition strip (s : string) : string := rstrip (lstrip s).

(** [s.startswith(p)]. *)
Fixpoint startswith (p s : string) : bool :=
  match p, s with
  | EmptyString, _ => true
  | String a p', String b s' => Ascii.eqb a b && startswith p' s'
  | String _ _, EmptyString => false
  end.

(** [c in s] for a one-character string [c]. *)
Fixpoint contains (c : ascii) (s : string) : bool :=
  match s with
  | EmptyString => false
  | String a r => Ascii.eqb a c || contains c r
  end.

(** [s.split(sep)] for a one-character separator. *)
Fixpoint split (sep : ascii) (s : string) : list string :=
  match s with
  | EmptyString => [EmptyString]
  | String a r =>
      if Ascii.eqb a sep then EmptyString :: split sep r
      else match split sep r with
           | hd :: tl => String a hd :: tl
           | [] => [chr a]
           end
  end.

(** [str(n)] for an integer. *)
Definition str_of_int (n : Z) : string := NilZero.string_of_int (Z.to_int n).

(** [f"{v}"]. *)
Definition format (v : value) : string :=
  match v with
  | VBool true => "True"
  | VBool false => "False"
  | VInt n => str_of_int n
  | VStr s => s
  end.

(** [c.isprintable()] on one character. *)
Definition isprintable (c : ascii) : bool :=
  let n := nat_of_ascii c in
  ((32 <=? n)%nat && (n <=? 126)%nat) || ((161 <=? n)%nat && negb (n =? 173)%nat).

Definition hexdigit (n : nat) : ascii :=
  match String.get n "0123456789abcdef" with
  | Some c => c
  | None => "0"%char
  end.

(** One character of [repr(s)] between the quotes [quote]. *)
Definition repr_char (quote c : ascii) : string :=
  if Ascii.eqb c quote || Ascii.eqb c BSL then String BSL (chr c)
  else if Ascii.eqb c TAB then String BSL "t"
  else if Ascii.eqb c LF then String BSL "n"
  else if Ascii.eqb c CR then String BSL "r"
  else if isprintable c then chr c
  else
    let n := nat_of_ascii c in
    String BSL (String "x" (String (hexdigit (n / 16)) (chr (hexdigit (n mod 16))))).

Fixpoint repr_body (quote : ascii) (s : string) : string :=
  match s with
  | EmptyString => EmptyString
  | String c r => repr_char quote c ++ repr_body quote r
  end.

(** [repr(s)]: double quotes when [s] holds a single quote and no
    double quote. *)
Definition repr (s : string) : string :=
  let quote := if contains SQ s && negb (contains DQ s) then DQ else SQ in
  chr quote ++ repr_body quote s ++ chr quote.

(** The white space [int] skips around a literal: TAB to CR and the
    blank, and the white space that is not ASCII.  The separators FS to
    US are not skipped. *)
Definition int_isspace (c : ascii) : bool :=
  let n := nat_of_ascii c in
  ((9 <=? n)%nat && (n <=? 13)%nat) || (n =? 32)%nat ||
  (n =? 133)%nat || (n =? 160)%nat.

Fixpoint int_skip (s : string) : string :=
  match s with
  | EmptyString => EmptyString
  | String c r => if int_isspace c then int_skip r else s
  end.

(** The run of digits and underscores at the start of [s]: its value,
    its number of digits and what follows it.  Two underscores in a
    row, or an underscore at the end of the run, are refused. *)
Fixpoint int_scan (after_underscore : bool) (acc digits : Z) (s : string)
  : option (Z * Z * string) :=
  match s with
  | String c r =>
      if isdigit c then int_scan false (10 * acc + digit_val c) (digits + 1) r
      else if Ascii.eqb c "_"%char then
        if after_underscore then None else int_scan true acc digits r
      else if after_underscore then None else Some (acc, digits, s)
  | EmptyString => if after_underscore then None else Some (acc, digits, s)
  end.

(** [sys.get_int_max_str_digits()], as the interpreter starts. *)
Definition int_max_str_digits : Z := 4300.

Definition err_int_literal (s : string) : exn :=
  ValueError ("invalid literal for int() with base 10: " ++
              String.substring 0 200 (repr s)).

Definition err_int_limit (digits : Z) : exn :=
  ValueError ("Exceeds the limit (" ++ str_of_int int_max_str_digits ++
              " digits) for integer string conversion: value has " ++
              str_of_int digits ++
              " digits; use sys.set_int_max_str_digits() to increase the limit").

(** [int(s)] for a string: white space, an optional sign, a run of
    digits in which single underscores may separate digits, white
    space.  The number of digits is checked against the limit before
    the rest of the text is looked at. *)
Definition int_of_str (s : string) : outcome Z :=
  let bad := Raise (err_int_literal s) in
  let s1 := int_skip s in
  let '(negative, s2) :=
    match s1 with
    | String c r =>
        if Ascii.eqb c "+"%char then (false, r)
        else if Ascii.eqb c "-"%char then (true, r)
        else (false, s1)
    | EmptyString => (false, s1)
    end in
  if startswith "_" s2 then bad
  else
    match int_scan false 0 0 s2 with
    | None => bad
    | Some (n, digits, rest) =>
        if int_max_str_digits <? digits then Raise (err_int_limit digits)
        else if digits =? 0 then bad
        else
          match int_skip rest with
          | EmptyString => Ok (if negative then - n else n)
          | String _ _ => bad
          end
    end.

(** [int(v)]. *)
Definition int (v : value) : outcome Z :=
  match v with
  | VBool b => Ok (if b then 1 else 0)
  | VInt n => Ok n
  | VStr s => int_of_str s
  end.

(** [a == b] on objects: a [bool] is an [int]; a string equals only a
    string. *)
Definition as_int (v : value) : option Z :=
  match v with
  | VBool b => Some (if b then 1 else 0)
  | VInt n => Some n
  | VStr _ => None
  end.

Definition eqv (a b : value) : bool :=
  match a, b with
  | VStr s, VStr t => String.eqb s t
  | VStr _, _ | _, VStr _ => false
  | _, _ => match as_int a, as_int b with
            | Some x, Some y => x =? y
            | _, _ => false
            end
  end.

End Py.
Import Py.


(* ===================================================================== *)
(** ** Insertion-ordered dictionaries *)
(* ===================================================================== *)

(** A Python [dict] or [OrderedDict] with string keys, in insertion order. *)
Module Dict.

Definition t (V : Type) : Type := list (string * V).

Section Ops.
Context {V : Type}.

(** [d.get(k)] *)
Fixpoint get (k : string) (d : t V) : option V :=
  match d with
  | [] => None
  | (k', v) :: r => if String.eqb k' k then Some v else get k r
  end.

(** [k in d] *)
Definition mem (k : string) (d : t V) : bool :=
  match get k d with Some _ => true | None => false end.

(** [d[k] = v]: an existing key keeps its position, a new key goes last. *)
Fixpoint set (k : string) (v : V) (d : t V) : t V :=
  match d with
  | [] => [(k, v)]
  | (k', v') :: r =>
      if String.eqb k' k then (k, v) :: r else (k', v') :: set k v r
  end.

(** [if k in d: del d[k]] *)
Fixpoint del (k : string) (d : t V) : t V :=
  match d with
  | [] => []
  | (k', v') :: r => if String.eqb k' k then r else (k', v') :: del k r
  end.

(** [d.get(k, default)] *)
Definition get_default (k : string) (default : V) (d : t V) : V :=
  match get k d with Some v => v | None => default end.

(** [list(d.keys())] *)
Definition keys (d : t V) : list string := map fst d.

End Ops.
End Dict.

(* ===================================================================== *)
(** ** Files *)
(* ===================================================================== *)

Record file : Type := File { content : string; mode : Z }.

(** Regular files by path. *)
Abbreviation filestore := (gmap string file).

(** Text read with universal newlines: CR LF and a lone CR arrive as LF. *)
Fixpoint universal_newlines (s : string) : string :=
  match s with
  | EmptyString => EmptyString
  | String c r =>
      if Ascii.eqb c CR then
        String LF
          match r with
          | String d r' => if Ascii.eqb d LF then universal_newlines r'
                           else universal_newlines r
          | EmptyString => EmptyString
          end
      else String c (universal_newlines r)
  end.

(** The lines of a text, each with its terminator. *)
Fixpoint split_keepends (s : string) : list string :=
  match s with
  | EmptyString => []
  | String c r =>
      if Ascii.eqb c LF then chr LF :: split_keepends r
      else match split_keepends r with
           | [] => [chr c]
           | l :: ls => String c l :: ls
           end
  end.

(** [fd.readlines()] on a file opened with [open(path, "r")]. *)
Definition readlines (f : file) : list string :=
  split_keepends (universal_newlines (content f)).

(* ===================================================================== *)
(** ** Regular expressions, by backtracking *)
(* ===================================================================== *)

(** Matchers in continuation-passing style: a matcher consumes a prefix of
    the subject and hands the rest to its continuation; when the
    continuation fails the matcher tries its next alternative, in the
    order of a backtracking engine. *)
Module Re.
Section Matcher.
Context {R : Type}.

(** [cls+], greedy: the longest run first, then shorter ones.  [taken]
    is what this repetition has consumed so far. *)
Fixpoint plus (cls : ascii -> bool) (k : string -> string -> option R)
         (taken s : string) : option R :=
  match s with
  | String c r =>
      if cls c then
        match plus cls k (taken ++ chr c) r with
        | Some m => Some m
        | None => k (taken ++ chr c) r
        end
      else None
  | EmptyString => None
  end.

(** A literal text. *)
Fixpoint lit (p : string) (k : string -> option R) (s : string) : option R :=
  match p with
  | EmptyString => k s
  | String a p' =>
      match s with
      | String b s' => if Ascii.eqb a b then lit p' k s' else None
      | EmptyString => None
      end
  end.

(** [(?:body)?], greedy: with the body first, then without.  The body
    passes the group it captured to the continuation. *)
Definition optional
           (body : (option string -> string -> option R) -> string -> option R)
           (k : option string -> string -> option R) (s : string) : option R :=
  match body k s with
  | Some m => Some m
  | None => k None s
  end.
End Matcher.
End Re.

(* ===================================================================== *)
(** ** HostfileParser *)
(* ===================================================================== *)

(** The groups of a match of [pattern]: host, digits of slots, type. *)
Definition groups : Type := string * string * option string.

(** [pattern = re.compile(r"^(\S+)\s+slots=(\d+)(?:\s+type=(\S+))?")] and
    [pattern.search(line)].  The pattern starts with [^] and is compiled
    without [re.MULTILINE], so a search can only match at offset 0. *)
Definition pattern_search (line : string) : option groups :=
  Re.plus nonspace (fun host s1 =>
  Re.plus isspace (fun _ s2 =>
  Re.lit "slots=" (fun s3 =>
  Re.plus isdigit (fun num s4 =>
  Re.optional
    (fun k =>
       Re.plus isspace (fun _ s5 =>
       Re.lit "type=" (fun s6 =>
       Re.plus nonspace (fun ty s7 => k (Some ty) s7) EmptyString s6) s5)
       EmptyString)
    (fun ty _ => Some (host, num, ty)) s4)
  EmptyString s3) s2) EmptyString s1) EmptyString line.

(** [g if g else None] on a group: a group that took part in no match is
    [None]. *)
Definition or_none (g : option string) : option string :=
  match g with
  | Some t => if String.eqb t EmptyString then None else Some t
  | None => None
  end.

(** One value of [resources]: [{"slots": num_slots, "type": machine_type}]. *)
Record resource_info : Type :=
  ResourceInfo { slots : Z; machine_type : option string }.

Abbreviation ResourceTable := (Dict.t resource_info).

Definition err_duplicate (host : string) : exn :=
  ValueError ("Hostfile contains multiple entries for host: " ++ host ++ ".").
Definition err_invalid (line : string) : exn :=
  ValueError ("Invalid entry in hostfile: " ++ line ++ ".").
Definition err_empty : exn :=
  ValueError "Hostfile is empty or not formatted correctly. Please check the hostfile.".

(** The loop [for line in hostfile_lines] of [parse_hostfile]. *)
Fixpoint parse_lines (hostfile_lines : list string) (resources : ResourceTable)
  : outcome ResourceTable :=
  match hostfile_lines with
  | [] => Ok resources
  | line :: rest =>
      let line := strip line in
      let match_ := pattern_search line in
      if startswith "#" line || String.eqb line EmptyString then
        parse_lines rest resources
      else
        match match_ with
        | Some (host, num, ty) =>
            obind (int (VStr num)) (fun num_slots =>
            let machine_type := or_none ty in
            if Dict.mem host resources then Raise (err_duplicate host)
            else parse_lines rest
                   (Dict.set host (ResourceInfo num_slots machine_type) resources))
        | None => Raise (err_invalid line)
        end
  end.

(** [parse_hostfile(hostfile_path)] over the file store [fs]:
    [os.path.isfile] holds of the paths bound in [fs]. *)
Definition parse_hostfile (fs : filestore) (hostfile_path : option string)
  : outcome (option ResourceTable) :=
  match hostfile_path with
  | None => Ok None
  | Some path =>
      match fs !! path with
      | None => Ok None
      | Some fd =>
          let hostfile_lines := readlines fd in
          obind (parse_lines hostfile_lines []) (fun resources =>
          if (length resources =? 0)%nat then Raise err_empty
          else Ok (Some resources))
      end
  end.

(* ===================================================================== *)
(** ** ResourceNegotiator *)
(* ===================================================================== *)

(** [a, _ = l]: unpacking a list into two targets. *)
Definition unpack2 (l : list string) : outcome (string * string) :=
  match l with
  | [a; b] => Ok (a, b)
  | [] => Raise (ValueError "not enough values to unpack (expected 2, got 0)")
  | [_] => Raise (ValueError "not enough values to unpack (expected 2, got 1)")
  | _ => Raise (ValueError "too many values to unpack (expected 2)")
  end.

(** [if isinstance(nnodes_from_args, str) and ":" in nnodes_from_args:
       nnodes_from_args, _ = nnodes_from_args.split(":")] *)
Definition drop_max_nnodes (nnodes_from_args : value) : outcome value :=
  match nnodes_from_args with
  | VStr s =>
      if contains ":" s then
        obind (unpack2 (split ":" s)) (fun '(nnodes_from_args, _) =>
        Ok (VStr nnodes_from_args))
      else Ok nnodes_from_args
  | _ => Ok nnodes_from_args
  end.

Definition _get_nnodes (nnodes_from_hostfile : option Z)
           (nnodes_from_args : option value) : outcome Z :=
  match nnodes_from_hostfile, nnodes_from_args with
  | None, None => Raise AssertionError
  | Some nnodes_from_hostfile, Some nnodes_from_args =>
      obind (drop_max_nnodes nnodes_from_args) (fun nnodes_from_args =>
      obind (int nnodes_from_args) (fun n =>
      Ok (Z.min nnodes_from_hostfile n)))
  | Some nnodes_from_hostfile, None => Ok nnodes_from_hostfile
  | None, Some nnodes_from_args =>
      obind (drop_max_nnodes nnodes_from_args) (fun nnodes_from_args =>
      int nnodes_from_args)
  end.

(** [if num_visible_devices:] on an optional count. *)
Definition known (num_visible_devices : option Z) : option Z :=
  match num_visible_devices with
  | Some n => if n =? 0 then None else Some n
  | None => None
  end.

Definition _get_nproc_per_node (nproc_from_hostfile : option Z)
           (nproc_from_args : option value) (num_visible_devices : option Z)
  : outcome value :=
  match nproc_from_hostfile, nproc_from_args with
  | Some nproc_from_hostfile, Some nproc_from_args =>
      obind (int nproc_from_args) (fun n =>
      let nproc := Z.min nproc_from_hostfile n in
      match known num_visible_devices with
      | Some num_visible_devices => Ok (VInt (Z.min nproc num_visible_devices))
      | None => Ok (VInt nproc)
      end)
  | Some nproc_from_hostfile, None =>
      match known num_visible_devices with
      | Some num_visible_devices =>
          Ok (VInt (Z.min nproc_from_hostfile num_visible_devices))
      | None => Ok (VInt nproc_from_hostfile)
      end
  | None, Some nproc_from_args =>
      match known num_visible_devices with
      | Some num_visible_devices =>
          obind (int nproc_from_args) (fun n =>
          Ok (VInt (Z.min n num_visible_devices)))
      | None => Ok nproc_from_args
      end
  | None, None =>
      match known num_visible_devices with
      | Some num_visible_devices => Ok (VInt num_visible_devices)
      | None => Ok (VInt 1)
      end
  end.

(* ===================================================================== *)
(** ** Configuration *)
(* ===================================================================== *)

(** [config.train.system.logging] and [config.train.system.checkpoint]
    as [_update_config] leaves them. *)
Record logging_config : Type := {
  log_dir : string;
  scripts_dir : string;
  pids_dir : string;
  details_dir : string;
  tensorboard_dir : string;
  wandb_save_dir : string
}.

Record checkpoint_config : Type := {
  load : string;
  save : string
}.

(** The parts of the configuration tree the launcher reads.  The
    sections under [experiment] hold scalar entries in file order;
    [megatron_args] stands for [_flatten_dict_to_args] applied to the
    [train] subtree. *)
Record Config : Type := {
  runner : Dict.t value;                  (* config.experiment.runner *)
  experiment_no_shared_fs : option value; (* config.experiment["no_shared_fs"] *)
  cmds : option (Dict.t value);           (* config.experiment.get("cmds", None) *)
  envs : Dict.t value;                    (* config.experiment.get("envs", {}) *)
  task_type : string;                     (* config.experiment.task.type *)
  task_backend : string;                  (* config.experiment.task.backend *)
  entrypoint : string;                    (* config.experiment.task.entrypoint *)
  logging : logging_config;
  checkpoint : checkpoint_config;
  megatron_args : list string
}.

(* ===================================================================== *)
(** ** Paths *)
(* ===================================================================== *)

Module Path.

Fixpoint endswith_slash (a : string) : bool :=
  match a with
  | EmptyString => false
  | String c EmptyString => Ascii.eqb c "/"%char
  | String _ r => endswith_slash r
  end.

(** [os.path.join(a, b)] on POSIX. *)
Definition join (a b : string) : string :=
  if startswith "/" b then b
  else if String.eqb a EmptyString || endswith_slash a then a ++ b
  else a ++ "/" ++ b.

(** A path argument must be a string. *)
Definition fspath (v : value) : outcome string :=
  match v with
  | VStr s => Ok s
  | _ => Raise TypeError
  end.

End Path.

(* ===================================================================== *)
(** ** LaunchPlanBuilder *)
(* ===================================================================== *)

(** The keys [_get_runner_cmd] deletes from [runner_args], in order. *)
Definition excluded_keys : list string :=
  ["type"; "backend"; "per_node_task"; "hostfile"; "master_addr"; "master_port"].

(** The loop that turns [runner_args] into tokens. *)
Definition emit (item : string * value) : list value :=
  let '(key, value) := item in
  match value with
  | VBool b => if b then [VStr ("--" ++ key)] else []
  | _ => [VStr ("--" ++ key); VStr (format value)]
  end.

Section RunnerCmd.

(** [os.path.abspath], which depends on the working directory, and the
    text [datetime.now().strftime("%Y%m%d_%H%M%S.%f")] returns at the
    call. *)
Variable abspath : string -> string.
Variable now : string.

Definition _get_runner_cmd (host : string)
           (master_addr master_port nnodes node_rank nproc_per_node : value)
           (config : Config) : outcome (list value) :=
  let runner_config := runner config in
  let logging_config := logging config in
  let per_node := truthy (Dict.get_default "per_node_task" (VBool false) runner_config) in
  let nnodes := if per_node then VInt 1 else nnodes in
  let node_rank := if per_node then VInt 0 else node_rank in
  let master_addr := if per_node then VStr "localhost" else master_addr in
  let rdzv_id := Dict.get_default "rdzv_id" (VStr "default") runner_config in
  let log_dir :=
    Dict.get_default "log_dir" (VStr (details_dir logging_config)) runner_config in
  obind (Path.fspath log_dir) (fun log_dir =>
  let log_dir := abspath log_dir in
  let no_shared_fs :=
    match experiment_no_shared_fs config with
    | Some v => truthy v
    | None => false
    end in
  let log_dir :=
    if no_shared_fs then Path.join log_dir "host"
    else Path.join log_dir ("host_" ++ format node_rank ++ "_" ++ host) in
  let log_dir := Path.join log_dir now in
  let rdzv_backend := Dict.get_default "rdzv_backend" (VStr "c10d") runner_config in
  let rdzv_endpoint :=
    Dict.get_default "rdzv_endpoint"
      (VStr (format master_addr ++ ":" ++ format master_port)) runner_config in
  let redirect := Dict.get_default "redirects" (VStr "3") runner_config in
  let tee := Dict.get_default "tee" (VStr "3") runner_config in
  let backend := Dict.get_default "backend" (VStr "torchrun") runner_config in
  let runner_args := fold_left (fun d k => Dict.del k d) excluded_keys runner_config in
  let runner_args := Dict.set "rdzv_id" rdzv_id runner_args in
  let runner_args := Dict.set "nnodes" nnodes runner_args in
  let runner_args := Dict.set "node_rank" node_rank runner_args in
  let runner_args := Dict.set "nproc_per_node" nproc_per_node runner_args in
  let runner_args := Dict.set "rdzv_backend" rdzv_backend runner_args in
  let runner_args := Dict.set "rdzv_endpoint" rdzv_endpoint runner_args in
  obind (if eqv backend (VStr "torchrun") then Ok log_dir
         else obind (Path.fspath rdzv_id) (fun rdzv_id =>
              Ok (Path.join log_dir rdzv_id))) (fun log_dir' =>
  let runner_args := Dict.set "log_dir" (VStr log_dir') runner_args in
  let runner_args := Dict.set "redirects" redirect runner_args in
  let runner_args := Dict.set "tee" tee runner_args in
  let runner_cmd := [backend] in
  Ok (runner_cmd ++ flat_map emit runner_args)%list)).

End RunnerCmd.

(* ===================================================================== *)
(** ** Effects *)
(* ===================================================================== *)

(** What [subprocess.run] returns. *)
Record completed : Type := Completed {
  returncode : Z;
  stdout : string;
  stderr : string
}.

(** What the process does that can be observed from outside.  The two
    [Call] events record the entry into [_run_each] and [_stop_each],
    with the host and the node rank they were called for. *)
Inductive event : Type :=
| Spawn (cmd : string)                         (* subprocess.run(cmd, shell=True, ..) *)
| Print (text : string)                        (* print(text) *)
| Call_run_each (host : string) (node_rank : value)
| Call_stop_each (host : string) (node_rank : value).

(** The state of the process and of its file system.  [ticks] counts
    the questions asked to the environment so far. *)
Record world : Type := World {
  files : filestore;
  trace : list event;
  ticks : nat
}.

(** What the environment answers: the exit status and output of the
    [n]-th command, the formatted time and the free port at the [n]-th
    question, the absolute form of a path, and the directory three
    levels above [runner.py]. *)
Record Env : Type := {
  shell : nat -> string -> completed;
  clock : nat -> string;
  port_at : nat -> Z;
  abspath : string -> string;
  root_dir : string
}.

Definition M (A : Type) : Type := world -> outcome A * world.

Definition ret {A} (a : A) : M A := fun w => (Ok a, w).

Definition bind {A B} (m : M A) (f : A -> M B) : M B :=
  fun w =>
    match m w with
    | (Ok a, w') => f a w'
    | (Raise e, w') => (Raise e, w')
    end.

Definition raise {A} (e : exn) : M A := fun w => (Raise e, w).

Definition lift {A} (o : outcome A) : M A := fun w => (o, w).

Declare Scope launcher_scope.
Delimit Scope launcher_scope with launcher.
Notation "x <- m ;; k" := (bind m (fun x => k))
  (at level 100, m at next level, right associativity) : launcher_scope.
Notation "m ;; k" := (bind m (fun _ => k))
  (at level 100, right associativity) : launcher_scope.
#[local] Open Scope launcher_scope.

Definition record (e : event) : M unit :=
  fun w => (Ok tt, World (files w) (trace w ++ [e])%list (ticks w)).

Definition tick : M nat :=
  fun w => (Ok (ticks w), World (files w) (trace w) (S (ticks w))).

Definition print (text : string) : M unit := record (Print text).

(** [with open(path, "w") as f: f.write(text)]: the file is created or
    truncated.  A new file gets the mode [0o644]; [os.makedirs], [flush]
    and [fsync] leave no mark on the store, which has no directories. *)
Definition write_text (path text : string) : M unit :=
  fun w =>
    let m := match files w !! path with Some f => mode f | None => 420 end in
    (Ok tt, World (<[path := File text m]> (files w)) (trace w) (ticks w)).

(** [os.chmod(path, m)] on a file that exists. *)
Definition chmod (path : string) (m : Z) : M unit :=
  fun w =>
    (Ok tt, World (alter (fun f => File (content f) m) path (files w))
               (trace w) (ticks w)).

(* ===================================================================== *)
(** ** ScriptGenerator *)
(* ===================================================================== *)

Definition nl : string := chr LF.

(** [config.experiment.get("cmds", None)] then [.get(hook, "")]. *)
Definition hook (name : string) (config : Config) : value :=
  match cmds config with
  | Some cmds_config =>
      match cmds_config with
      | [] => VStr EmptyString
      | _ => Dict.get_default name (VStr EmptyString) cmds_config
      end
  | None => VStr EmptyString
  end.

(** [config.experiment.runner.get("no_shared_fs", False)] *)
Definition runner_no_shared_fs (config : Config) : bool :=
  truthy (Dict.get_default "no_shared_fs" (VBool false) (runner config)).

(** [f"host_{node_rank}_{host}"] *)
Definition host_tag (node_rank : value) (host : string) : string :=
  "host_" ++ format node_rank ++ "_" ++ host.

Definition pid_file_of (config : Config) (host : string) (node_rank : value) : string :=
  Path.join (pids_dir (logging config)) (host_tag node_rank host ++ ".pid").

Definition run_script_of (config : Config) (host : string) (node_rank : value) : string :=
  Path.join (scripts_dir (logging config)) (host_tag node_rank host ++ "_run.sh").

Definition stop_script_of (config : Config) (host : string) (node_rank : value) : string :=
  Path.join (scripts_dir (logging config)) (host_tag node_rank host ++ "_stop.sh").

(** The text [_generate_run_script] writes, one [f.write] per line. *)
Definition run_script_text (root_dir : string) (config : Config) (host : string)
           (node_rank : value) (cmd : string) (background with_test : bool) : string :=
  let logging_config := logging config in
  let host_output_file :=
    if runner_no_shared_fs config then Path.join (log_dir logging_config) "host.output"
    else Path.join (log_dir logging_config) (host_tag node_rank host ++ ".output") in
  let host_pid_file := pid_file_of config host node_rank in
  let megatron_dir := Path.join root_dir "megatron" in
  let before_start := hook "before_start" config in
  "#!/bin/bash" ++ nl ++ nl ++
  format before_start ++ nl ++
  "mkdir -p " ++ load (checkpoint config) ++ nl ++
  "mkdir -p " ++ save (checkpoint config) ++ nl ++
  "mkdir -p " ++ log_dir logging_config ++ nl ++
  "mkdir -p " ++ pids_dir logging_config ++ nl ++
  "mkdir -p " ++ details_dir logging_config ++ nl ++
  "mkdir -p " ++ tensorboard_dir logging_config ++ nl ++
  "mkdir -p " ++ wandb_save_dir logging_config ++ nl ++
  nl ++
  "cd " ++ root_dir ++ nl ++
  nl ++
  "export PYTHONPATH=" ++ megatron_dir ++ ":" ++ root_dir ++ nl ++
  nl ++
  "cmd=" ++ chr DQ ++ cmd ++ chr DQ ++ nl ++
  nl ++
  (if with_test then
     "bash -c " ++ chr DQ ++ "$cmd" ++ chr DQ ++ " " ++ nl
   else if background then
     "nohup bash -c " ++ chr DQ ++ "$cmd" ++ chr DQ ++ " >> " ++ host_output_file ++
     " 2>&1 & echo $! > " ++ host_pid_file ++ nl
   else
     "bash -c " ++ chr DQ ++ "$cmd" ++ chr DQ ++ " >> " ++ host_output_file ++
     " 2>&1" ++ nl) ++
  nl.

Definition _generate_run_script (root_dir : string) (config : Config) (host : string)
           (node_rank : value) (cmd : string) (background with_test : bool) : M string :=
  let host_run_script_file := run_script_of config host node_rank in
  write_text host_run_script_file
    (run_script_text root_dir config host node_rank cmd background with_test) ;;
  chmod host_run_script_file 493 ;;
  ret host_run_script_file.

(** The text [_generate_stop_script] writes, one [f.write] per line. *)
Definition stop_script_text (config : Config) (host : string) (node_rank : value)
  : string :=
  let host_pid_file := pid_file_of config host node_rank in
  let after_stop := hook "after_stop" config in
  "#!/bin/bash" ++ nl ++ nl ++
  "if [ -f " ++ host_pid_file ++ " ]; then" ++ nl ++
  "    pid=$(cat " ++ host_pid_file ++ ")" ++ nl ++
  "    pkill -P $pid" ++ nl ++
  "else" ++ nl ++
  "    pkill -f 'torchrun'" ++ nl ++
  "fi" ++ nl ++
  format after_stop ++ nl.

Definition _generate_stop_script (config : Config) (host : string)
           (node_rank : value) : M string :=
  let host_stop_script_file := stop_script_of config host node_rank in
  write_text host_stop_script_file (stop_script_text config host node_rank) ;;
  chmod host_stop_script_file 493 ;;
  ret host_stop_script_file.

(* ===================================================================== *)
(** ** Dispatcher *)
(* ===================================================================== *)

(** [shlex.quote] and [shlex.join]. *)
Module Shlex.

Definition safe (c : ascii) : bool :=
  let n := nat_of_ascii c in
  ((48 <=? n)%nat && (n <=? 57)%nat) || ((65 <=? n)%nat && (n <=? 90)%nat) ||
  ((97 <=? n)%nat && (n <=? 122)%nat) ||
  existsb (Ascii.eqb c) (list_ascii_of_string "_@%+=:,./-").

Fixpoint all_safe (s : string) : bool :=
  match s with
  | EmptyString => true
  | String c r => safe c && all_safe r
  end.

(** [s.replace("'", "'\"'\"'")] *)
Fixpoint escape (s : string) : string :=
  match s with
  | EmptyString => EmptyString
  | String c r =>
      if Ascii.eqb c SQ then chr SQ ++ chr DQ ++ chr SQ ++ chr DQ ++ chr SQ ++ escape r
      else String c (escape r)
  end.

Definition quote (s : string) : string :=
  match s with
  | EmptyString => chr SQ ++ chr SQ
  | _ => if all_safe s then s else chr SQ ++ escape s ++ chr SQ
  end.

Fixpoint join_strs (l : list string) : string :=
  match l with
  | [] => EmptyString
  | [a] => quote a
  | a :: r => quote a ++ " " ++ join_strs r
  end.

Fixpoint strs (l : list value) : outcome (list string) :=
  match l with
  | [] => Ok []
  | VStr s :: r => obind (strs r) (fun r' => Ok (s :: r'))
  | _ :: _ => Raise TypeError
  end.

Definition join (l : list value) : outcome string :=
  obind (strs l) (fun l' => Ok (join_strs l')).

End Shlex.

(* ===================================================================== *)
(** ** The shell, on the text of a script *)
(* ===================================================================== *)

(** What [bash] does with the first command of a script and where it
    goes on reading, for the part of its language the stop script is
    written in: words separated by blanks, [;], comments, single quotes,
    [$name], [$(command)] around literal words, the reserved words [if],
    [then], [else] and [fi], assignments, the builtin [[] with [-f], and
    commands looked up on the [PATH].  A text that uses anything else is
    outside this model: reading or running it gives [None].

    [bash] reads a script one command at a time and runs each command
    before it reads the next, so what follows the first command has no
    part in how that command is read or run. *)
Module Sh.

#[local] Set Warnings "-register-all".

(** A piece of a word. *)
Inductive part : Type :=
| Lit (text : string)          (* characters that stand for themselves *)
| Quoted (text : string)       (* '...' *)
| Var (name : string)          (* $name *)
| Cmd (argv : list string).    (* $(...), around literal words *)

Definition word : Type := list part.

Inductive token : Type :=
| TWord (w : word)
| TSemi.

(** Where the reader of a line is. *)
Inductive mode : Type :=
| Plain
| Quote                                          (* after an opening quote *)
| Dollar                                         (* after [$] *)
| Name (name : string)                           (* in [$name] *)
| Subst (argv : list string) (w : option string) (* in [$(...)] *)
| Bracket                                        (* after the word [[] or []] *)
| Comment.

(** The tokens read so far, oldest first, and the word being read: its
    finished parts and the literal text that is still growing. *)
Record lexer : Type := Lexer {
  toks : list token;
  cur : option (word * option string);
  at_ : mode
}.

Definition blank (c : ascii) : bool := Ascii.eqb c " " || Ascii.eqb c TAB.

(** Characters that stand for themselves wherever they are in a word:
    the ones [shlex.quote] leaves alone. *)
Definition plain (c : ascii) : bool := Shlex.safe c.

Definition name_start (c : ascii) : bool :=
  let n := nat_of_ascii c in
  ((65 <=? n)%nat && (n <=? 90)%nat) || ((97 <=? n)%nat && (n <=? 122)%nat) ||
  Ascii.eqb c "_".

Definition name_char (c : ascii) : bool := name_start c || isdigit c.

Definition closed (w : word * option string) : word :=
  match snd w with
  | Some text => (fst w ++ [Lit text])%list
  | None => fst w
  end.

(** The tokens, with the word being read among them. *)
Definition flush (l : lexer) : list token :=
  match cur l with
  | Some w => (toks l ++ [TWord (closed w)])%list
  | None => toks l
  end.

(** One more literal character. *)
Definition push (c : ascii) (l : lexer) : lexer :=
  match cur l with
  | Some (parts, Some text) => Lexer (toks l) (Some (parts, Some (text ++ chr c))) Plain
  | Some (parts, None) => Lexer (toks l) (Some (parts, Some (chr c))) Plain
  | None => Lexer (toks l) (Some ([], Some (chr c))) Plain
  end.

(** One more part. *)
Definition add (p : part) (l : lexer) : lexer :=
  match cur l with
  | Some w => Lexer (toks l) (Some ((closed w ++ [p])%list, None)) Plain
  | None => Lexer (toks l) (Some ([p], None)) Plain
  end.

Definition step_plain (l : lexer) (c : ascii) : option lexer :=
  if blank c then Some (Lexer (flush l) None Plain)
  else if Ascii.eqb c ";" then Some (Lexer (flush l ++ [TSemi])%list None Plain)
  else if Ascii.eqb c "#" then
    match cur l with
    | None => Some (Lexer (toks l) None Comment)
    | Some _ => Some (push c l)
    end
  else if Ascii.eqb c SQ then
    match cur l with
    | Some w => Some (Lexer (toks l) (Some (closed w, Some EmptyString)) Quote)
    | None => Some (Lexer (toks l) (Some ([], Some EmptyString)) Quote)
    end
  else if Ascii.eqb c "$" then Some (Lexer (toks l) (cur l) Dollar)
  else if Ascii.eqb c "[" || Ascii.eqb c "]" then
    match cur l with
    | None => Some (Lexer (toks l ++ [TWord [Lit (chr c)]])%list None Bracket)
    | Some _ => None
    end
  else if plain c then Some (push c l)
  else None.

Definition step (l : lexer) (c : ascii) : option lexer :=
  match at_ l with
  | Plain => step_plain l c
  | Quote =>
      match cur l with
      | Some (parts, Some text) =>
          if Ascii.eqb c SQ then
            Some (Lexer (toks l) (Some ((parts ++ [Quoted text])%list, None)) Plain)
          else Some (Lexer (toks l) (Some (parts, Some (text ++ chr c))) Quote)
      | _ => None
      end
  | Dollar =>
      if Ascii.eqb c "(" then Some (Lexer (toks l) (cur l) (Subst [] None))
      else if name_start c then Some (Lexer (toks l) (cur l) (Name (chr c)))
      else None
  | Name name =>
      if name_char c then Some (Lexer (toks l) (cur l) (Name (name ++ chr c)))
      else step_plain (add (Var name) l) c
  | Subst argv w =>
      let argv' := match w with Some text => (argv ++ [text])%list | None => argv end in
      if blank c then Some (Lexer (toks l) (cur l) (Subst argv' None))
      else if Ascii.eqb c ")" then
        match argv' with
        | [] => None
        | _ => Some (add (Cmd argv') l)
        end
      else if plain c then
        Some (Lexer (toks l) (cur l)
                (Subst argv (Some (match w with
                                   | Some text => text ++ chr c
                                   | None => chr c
                                   end))))
      else None
  | Bracket =>
      if blank c then Some (Lexer (toks l) None Plain)
      else if Ascii.eqb c ";" then Some (Lexer (toks l ++ [TSemi])%list None Plain)
      else None
  | Comment => Some l
  end.

Fixpoint lex_from (l : lexer) (s : string) : option lexer :=
  match s with
  | EmptyString => Some l
  | String c r =>
      match step l c with
      | Some l' => lex_from l' r
      | None => None
      end
  end.

(** The tokens of a line.  A quote or a substitution that the line
    leaves open is outside the model. *)
Definition lex (line : string) : option (list token) :=
  match lex_from (Lexer [] None Plain) line with
  | Some l =>
      match at_ l with
      | Plain | Bracket | Comment => Some (flush l)
      | Name name => Some (flush (add (Var name) l))
      | Quote | Dollar | Subst _ _ => None
      end
  | None => None
  end.

(** A simple command: its words. *)
Definition simple : Type := list word.

(** The simple commands of a line, which [;] ends. *)
Fixpoint commands (c : simple) (ts : list token) : option (list simple) :=
  match ts with
  | [] => Some match c with [] => [] | _ :: _ => [c] end
  | TWord w :: r => commands (c ++ [w])%list r
  | TSemi :: r =>
      match c with
      | [] => None
      | _ :: _ =>
          match commands [] r with
          | Some cs => Some (c :: cs)
          | None => None
          end
      end
  end.

Inductive keyword : Type := KIf | KThen | KElse | KFi.

(** A reserved word is a word written as it is, where a command starts. *)
Definition keyword_of (w : word) : option keyword :=
  match w with
  | [Lit text] =>
      if String.eqb text "if" then Some KIf
      else if String.eqb text "then" then Some KThen
      else if String.eqb text "else" then Some KElse
      else if String.eqb text "fi" then Some KFi
      else None
  | _ => None
  end.

(** The reserved words the model does not read. *)
Definition unread (w : word) : bool :=
  match w with
  | [Lit text] =>
      existsb (String.eqb text)
        ["elif"; "while"; "until"; "for"; "do"; "done"; "case"; "esac"; "in";
         "select"; "function"; "time"; "coproc"]
  | _ => false
  end.

Inductive item : Type :=
| Kw (k : keyword)
| Words (c : simple).

(** A command that starts with [if], [then] or [else] goes on with a
    command; nothing follows [fi]. *)
Fixpoint items (c : simple) : option (list item) :=
  match c with
  | [] => Some []
  | w :: r =>
      match keyword_of w with
      | Some KFi => match r with [] => Some [Kw KFi] | _ :: _ => None end
      | Some k =>
          match items r with
          | Some is_ => Some (Kw k :: is_)
          | None => None
          end
      | None => if unread w then None else Some [Words c]
      end
  end.

Fixpoint items_of (cs : list simple) : option (list item) :=
  match cs with
  | [] => Some []
  | c :: r =>
      match items c, items_of r with
      | Some a, Some b => Some (a ++ b)%list
      | _, _ => None
      end
  end.

(** A command: a simple command, or [if cond; then a; else b; fi]
    around lists of simple commands. *)
Inductive command : Type :=
| Simple (c : simple)
| If (cond then_ else_ : list simple).

Inductive reader : Type :=
| Top
| InCond (cond : list simple)
| InThen (cond then_ : list simple)
| InElse (cond then_ else_ : list simple)
| Done (c : command).

Definition feed (r : reader) (i : item) : option reader :=
  match r, i with
  | Top, Kw KIf => Some (InCond [])
  | Top, Words c => Some (Done (Simple c))
  | InCond cond, Words c => Some (InCond (cond ++ [c])%list)
  | InCond ((_ :: _) as cond), Kw KThen => Some (InThen cond [])
  | InThen cond t, Words c => Some (InThen cond (t ++ [c])%list)
  | InThen cond ((_ :: _) as t), Kw KElse => Some (InElse cond t [])
  | InThen cond ((_ :: _) as t), Kw KFi => Some (Done (If cond t []))
  | InElse cond t e, Words c => Some (InElse cond t (e ++ [c])%list)
  | InElse cond t ((_ :: _) as e), Kw KFi => Some (Done (If cond t e))
  | _, _ => None
  end.

Fixpoint feed_all (r : reader) (is_ : list item) : option reader :=
  match is_ with
  | [] => Some r
  | i :: rest =>
      match feed r i with
      | Some r' => feed_all r' rest
      | None => None
      end
  end.

(** One more line. *)
Definition read_line (r : reader) (line : string) : option reader :=
  match lex line with
  | Some ts =>
      match commands [] ts with
      | Some cs =>
          match items_of cs with
          | Some is_ => feed_all r is_
          | None => None
          end
      | None => None
      end
  | None => None
  end.

(** The first command of the lines, and the lines after it. *)
Fixpoint read_lines (r : reader) (lines : list string) : option (command * list string) :=
  match lines with
  | [] => None
  | line :: rest =>
      match read_line r line with
      | Some (Done c) => Some (c, rest)
      | Some r' => read_lines r' rest
      | None => None
      end
  end.

Fixpoint unlines (lines : list string) : string :=
  match lines with
  | [] => EmptyString
  | [l] => l
  | l :: rest => l ++ String LF (unlines rest)
  end.

(** The first command of a script, and the text after it. *)
Definition read (text : string) : option (command * string) :=
  match read_lines Top (split LF text) with
  | Some (c, rest) => Some (c, unlines rest)
  | None => None
  end.

(** *** Running a command *)

(** The regular files by path, with their contents; the variables. *)
Definition files : Type := string -> option string.
Definition vars : Type := Dict.t string.

(** A program found on the [PATH] and started with these arguments. *)
Inductive action : Type :=
| Run (argv : list string).

Fixpoint rstrip_newlines (s : string) : string :=
  match s with
  | EmptyString => EmptyString
  | String c r =>
      match rstrip_newlines r with
      | EmptyString => if Ascii.eqb c LF then EmptyString else chr c
      | r' => String c r'
      end
  end.

(** What [$(argv)] stands for: the model knows [cat] of one file
    without a NUL, which prints the file when there is one. *)
Definition output (fs : files) (argv : list string) : option string :=
  match argv with
  | [prog; path] =>
      if String.eqb prog "cat" && negb (startswith "-" path) then
        match fs path with
        | Some text =>
            if contains (ascii_of_nat 0) text then None else Some (rstrip_newlines text)
        | None => Some EmptyString
        end
      else None
  | _ => None
  end.

(** The text one part stands for, and what was run to have it. *)
Definition value_of (fs : files) (vs : vars) (p : part) : option (string * list action) :=
  match p with
  | Lit text | Quoted text => Some (text, [])
  | Var name => Some (Dict.get_default name EmptyString vs, [])
  | Cmd argv =>
      match output fs argv with
      | Some text => Some (text, [Run argv])
      | None => None
      end
  end.

(** The text a word stands for where it is not split: in an assignment. *)
Fixpoint text_of (fs : files) (vs : vars) (w : word) : option (string * list action) :=
  match w with
  | [] => Some (EmptyString, [])
  | p :: r =>
      match value_of fs vs p, text_of fs vs r with
      | Some (a, x), Some (b, y) => Some (a ++ b, (x ++ y)%list)
      | _, _ => None
      end
  end.

Definition ifs (c : ascii) : bool := blank c || Ascii.eqb c LF.

(** Splitting at the white space of [IFS]. *)
Fixpoint split_fields (w : option string) (s : string) : list string :=
  match s with
  | EmptyString => match w with Some text => [text] | None => [] end
  | String c r =>
      if ifs c then
        match w with
        | Some text => text :: split_fields None r
        | None => split_fields None r
        end
      else split_fields (Some match w with
                              | Some text => text ++ chr c
                              | None => chr c
                              end) r
  end.

Definition is_text (p : part) : bool :=
  match p with Lit _ | Quoted _ => true | _ => false end.

Definition globbing (s : string) : bool :=
  contains "*" s || contains "?" s || contains "[" s.

(** The arguments a word stands for: a word written out is one
    argument; a word that is one expansion is split into fields, which
    the model takes as they are when no pattern character is in them. *)
Definition fields (fs : files) (vs : vars) (w : word)
  : option (list string * list action) :=
  if forallb is_text w then
    match text_of fs vs w with
    | Some (text, acts) => Some ([text], acts)
    | None => None
    end
  else
    match w with
    | [Var _] | [Cmd _] =>
        match text_of fs vs w with
        | Some (text, acts) =>
            if globbing text then None else Some (split_fields None text, acts)
        | None => None
        end
    | _ => None
    end.

Fixpoint all_fields (fs : files) (vs : vars) (ws : list word)
  : option (list string * list action) :=
  match ws with
  | [] => Some ([], [])
  | w :: r =>
      match fields fs vs w, all_fields fs vs r with
      | Some (a, x), Some (b, y) => Some ((a ++ b)%list, (x ++ y)%list)
      | _, _ => None
      end
  end.

Fixpoint is_name (first : bool) (s : string) : bool :=
  match s with
  | EmptyString => negb first
  | String c r => (if first then name_start c else name_char c) && is_name false r
  end.

(** [name=...] at the start of a literal: the name and what follows
    the [=]. *)
Fixpoint cut_assignment (name text : string) : option (string * string) :=
  match text with
  | EmptyString => None
  | String c r =>
      if Ascii.eqb c "=" then if is_name true name then Some (name, r) else None
      else cut_assignment (name ++ chr c) r
  end.

Definition assignment (w : word) : option (string * word) :=
  match w with
  | Lit text :: rest =>
      match cut_assignment EmptyString text with
      | Some (name, v) => Some (name, Lit v :: rest)
      | None => None
      end
  | _ => None
  end.

Definition binary_operators : list string :=
  ["="; "=="; "!="; "<"; ">"; "=~"; "-eq"; "-ne"; "-lt"; "-le"; "-gt"; "-ge";
   "-nt"; "-ot"; "-ef"; "-a"; "-o"].

(** The builtin [[]: with the two operands [-f path], whether [path] is
    a regular file; with three operands of which the second is no
    operator, a failure ([binary operator expected]). *)
Definition bracket (fs : files) (operands : list string) : option bool :=
  match operands with
  | [op; path; close] =>
      if String.eqb op "-f" && String.eqb close "]" then
        Some match fs path with Some _ => true | None => false end
      else None
  | [a; b; c; close] =>
      if String.eqb close "]" &&
         negb (String.eqb a "!" || String.eqb a "(" ||
               existsb (String.eqb b) binary_operators)
      then Some false
      else None
  | _ => None
  end.

Definition has_substitution (w : word) : bool :=
  existsb (fun p => match p with Cmd _ => true | _ => false end) w.

(** A simple command: the variables after it, what it ran, and whether
    it succeeded, when the model knows. *)
Definition exec_simple (fs : files) (vs : vars) (c : simple)
  : option (vars * list action * option bool) :=
  match c with
  | [] => None
  | w :: args =>
      match assignment w with
      | Some (name, v) =>
          match args, text_of fs vs v with
          | [], Some (text, acts) =>
              Some (Dict.set name text vs, acts,
                    if has_substitution v then None else Some true)
          | _, _ => None
          end
      | None =>
          match all_fields fs vs c with
          | Some (prog :: operands, acts) =>
              if String.eqb prog "[" then
                match bracket fs operands with
                | Some b => Some (vs, acts, Some b)
                | None => None
                end
              else Some (vs, (acts ++ [Run (prog :: operands)])%list, None)
          | _ => None
          end
      end
  end.

Fixpoint exec_list (fs : files) (vs : vars) (status : option bool) (cs : list simple)
  : option (vars * list action * option bool) :=
  match cs with
  | [] => Some (vs, [], status)
  | c :: r =>
      match exec_simple fs vs c with
      | Some (vs', acts, status') =>
          match exec_list fs vs' status' r with
          | Some (vs'', acts', status'') => Some (vs'', (acts ++ acts')%list, status'')
          | None => None
          end
      | None => None
      end
  end.

(** What a command runs. *)
Definition exec (fs : files) (vs : vars) (c : command) : option (list action) :=
  match c with
  | Simple c =>
      match exec_simple fs vs c with
      | Some (_, acts, _) => Some acts
      | None => None
      end
  | If cond then_ else_ =>
      match exec_list fs vs None cond with
      | Some (vs', acts, Some b) =>
          match exec_list fs vs' None (if b then then_ else else_) with
          | Some (_, acts', _) => Some (acts ++ acts')%list
          | None => None
          end
      | _ => None
      end
  end.

(** What the shell runs for the first command of a script, and the text
    it goes on with. *)
Definition run (fs : files) (vs : vars) (text : string) : option (list action * string) :=
  match read text with
  | Some (c, rest) =>
      match exec fs vs c with
      | Some acts => Some (acts, rest)
      | None => None
      end
  | None => None
  end.

(** A word the shell and the commands take as it is written: not empty,
    made of plain characters, and not starting like an option. *)
Definition literal (s : string) : bool :=
  negb (String.eqb s EmptyString) && Shlex.all_safe s && negb (startswith "-" s).

End Sh.

(** The command the stop script of a pid file reads as. *)
Definition stop_command (host_pid_file : string) : Sh.command :=
  Sh.If [[[Sh.Lit "["]; [Sh.Lit "-f"]; [Sh.Lit host_pid_file]; [Sh.Lit "]"]]]
        [[[Sh.Lit "pid="; Sh.Cmd ["cat"; host_pid_file]]];
         [[Sh.Lit "pkill"]; [Sh.Lit "-P"]; [Sh.Var "pid"]]]
        [[[Sh.Lit "pkill"]; [Sh.Lit "-f"]; [Sh.Quoted "torchrun"]]].

Section Dispatcher.

Variable env : Env.

(** [subprocess.run(cmd, shell=True, check=check, ..)]: the command
    runs to its end; with [check] a non-zero exit status raises
    [CalledProcessError]. *)
Definition subprocess_run (cmd : string) (check : bool) : M completed :=
  n <- tick ;;
  record (Spawn cmd) ;;
  let result := shell env n cmd in
  if check && negb (returncode result =? 0)
  then raise (CalledProcessError (returncode result) cmd)
  else ret result.

Definition run_local_command (cmd : string) (dryrun : bool) : M unit :=
  if dryrun then ret tt
  else
    result <- subprocess_run cmd true ;;
    if negb (returncode result =? 0) then
      print ("Command " ++ cmd ++ " failed with return code " ++
             str_of_int (returncode result) ++ ".") ;;
      print ("Output: " ++ stdout result) ;;
      print ("Error: " ++ stderr result) ;;
      raise (SystemExit (returncode result))
    else ret tt.

(** [if port:] on an optional value. *)
Definition given (port : option value) : option value :=
  match port with
  | Some p => if truthy p then Some p else None
  | None => None
  end.

Definition run_ssh_command (host cmd : string) (port : option value)
           (dryrun : bool) : M unit :=
  let ssh_cmd :=
    match given port with
    | Some port => "ssh -f -n -p " ++ format port ++ " " ++ host ++ " '" ++ cmd ++ "'"
    | None => "ssh -f -n " ++ host ++ " '" ++ cmd ++ "'"
    end in
  if dryrun then ret tt
  else subprocess_run ssh_cmd true ;; ret tt.

Definition run_scp_command (host src dst : string) (port : option value)
           (dryrun : bool) : M unit :=
  let scp_cmd :=
    match given port with
    | Some port => "scp -P " ++ format port ++ " -r " ++ src ++ " " ++ host ++ ":" ++ dst ++ " "
    | None => "scp -r " ++ src ++ " " ++ host ++ ":" ++ dst ++ " "
    end in
  if dryrun then ret tt
  else subprocess_run scp_cmd true ;; ret tt.

(** [get_free_port()] *)
Definition get_free_port : M Z :=
  n <- tick ;; ret (port_at env n).

(** [datetime.now().strftime("%Y%m%d_%H%M%S.%f")] *)
Definition strftime_now : M string :=
  n <- tick ;; ret (clock env n).

End Dispatcher.

(* ===================================================================== *)
(** ** Runner orchestration: [SSHRunner] *)
(* ===================================================================== *)

(** [for node_rank, (host, info) in enumerate(items, start):
       if node_rank >= nnodes: break
       body(node_rank, host, info)] *)
Fixpoint for_hosts {V : Type} (nnodes : Z) (body : Z -> string -> V -> M unit)
         (start : Z) (items : Dict.t V) : M unit :=
  match items with
  | [] => ret tt
  | (host, info) :: rest =>
      if start >=? nnodes then ret tt
      else body start host info ;; for_hosts nnodes body (start + 1) rest
  end.

Record SSHRunner : Type := {
  config : Config;
  resources : option ResourceTable
}.

(** What [_prepare] stores on the runner. *)
Record prepared : Type := {
  user_envs : Dict.t value;
  user_script : string;
  user_args : list string
}.

(** [runner_config.get("hostfile", None)], a path when it is given. *)
Definition hostfile_of (config : Config) : option string :=
  match Dict.get "hostfile" (runner config) with
  | Some (VStr path) => Some path
  | _ => None
  end.

Section Runner.

Variable env : Env.

(** [SSHRunner.__init__], on a configuration [_update_config] has
    completed. *)
Definition SSHRunner_init (config : Config) : M SSHRunner :=
  fun w =>
    match parse_hostfile (files w) (hostfile_of config) with
    | Ok resources => (Ok {| config := config; resources := resources |}, w)
    | Raise e => (Raise e, w)
    end.

(** [get_megatron_args] asserts the backend before it flattens. *)
Definition get_megatron_args (config : Config) : outcome (list string) :=
  if String.eqb (task_backend config) "megatron" then Ok (megatron_args config)
  else Raise AssertionError.

Definition _prepare (self : SSHRunner) : M prepared :=
  _ <- strftime_now env ;;
  if String.eqb (task_type (config self)) "train" then
    user_args <- lift (get_megatron_args (config self)) ;;
    ret {| user_envs := envs (config self);
           user_script := entrypoint (config self);
           user_args := user_args |}
  else
    raise (ValueError ("Unsupported task type: " ++ task_type (config self))).

Definition _run_each (self : SSHRunner) (p : prepared) (host : string)
           (master_addr master_port nnodes node_rank nproc_per_node : value)
           (with_test dryrun : bool) : M unit :=
  record (Call_run_each host node_rank) ;;
  let export_cmd := map (fun '(k, v) => VStr (k ++ "=" ++ format v)) (user_envs p) in
  now <- strftime_now env ;;
  runner_cmd <- lift (_get_runner_cmd (abspath env) now host master_addr master_port
                        nnodes node_rank nproc_per_node (config self)) ;;
  cmd <- lift (Shlex.join (export_cmd ++ runner_cmd ++ [VStr (user_script p)] ++
                           map VStr (user_args p))%list) ;;
  host_run_script_file <-
    _generate_run_script (root_dir env) (config self) host node_rank cmd true with_test ;;
  let logging_config := logging (config self) in
  if negb (String.eqb host "localhost") then
    let ssh_port := Dict.get_default "ssh_port" (VInt 22) (runner (config self)) in
    run_ssh_command env host ("mkdir -p " ++ scripts_dir logging_config)
                    (Some ssh_port) dryrun ;;
    (if runner_no_shared_fs (config self) then
       run_scp_command env host host_run_script_file (scripts_dir logging_config)
                       (Some ssh_port) dryrun
     else ret tt) ;;
    run_ssh_command env host ("bash " ++ host_run_script_file) (Some ssh_port) dryrun
  else
    run_local_command env ("bash " ++ host_run_script_file) dryrun.

(** [visible_devices = user_envs.get("CUDA_VISIBLE_DEVICES", None)] and
    the count derived from it. *)
Definition count_visible_devices (user_envs : Dict.t value) : outcome (option Z) :=
  match Dict.get "CUDA_VISIBLE_DEVICES" user_envs with
  | Some visible_devices =>
      if truthy visible_devices then
        match visible_devices with
        | VStr s => Ok (Some (Z.of_nat (length (split "," s))))
        | _ => Raise AttributeError
        end
      else Ok None
  | None => Ok None
  end.

(** The body of the loop over the hosts in [run]. *)
Definition run_host (self : SSHRunner) (p : prepared) (num_visible_devices : option Z)
           (avaliable_ip : string) (avalibale_port : Z) (nnodes : Z)
           (with_test dryrun : bool)
           (node_rank : Z) (host : string) (resource_info : resource_info) : M unit :=
  let runner_config := runner (config self) in
  let nproc_from_hostfile := slots resource_info in
  let nproc_from_args := Dict.get "nproc_per_node" runner_config in
  nproc_per_node <- lift (_get_nproc_per_node (Some nproc_from_hostfile)
                            nproc_from_args num_visible_devices) ;;
  let master_addr := Dict.get_default "master_addr" (VStr avaliable_ip) runner_config in
  let master_port := Dict.get_default "master_port" (VInt avalibale_port) runner_config in
  _run_each self p host master_addr master_port (VInt nnodes) (VInt node_rank)
            nproc_per_node with_test dryrun.

Definition run (self : SSHRunner) (with_test dryrun : bool) : M unit :=
  p <- _prepare self ;;
  num_visible_devices <- lift (count_visible_devices (user_envs p)) ;;
  let runner_config := runner (config self) in
  match resources self with
  | Some resources =>
      let nnodes_from_hostfile := Z.of_nat (length (Dict.keys resources)) in
      let nnodes_from_args := Dict.get "nnodes" runner_config in
      nnodes <- lift (_get_nnodes (Some nnodes_from_hostfile) nnodes_from_args) ;;
      avaliable_ip <- lift (match Dict.keys resources with
                            | k :: _ => Ok k
                            | [] => Raise IndexError
                            end) ;;
      avalibale_port <- get_free_port env ;;
      for_hosts nnodes
        (run_host self p num_visible_devices avaliable_ip avalibale_port nnodes
                  with_test dryrun)
        0 resources
  | None =>
      let nproc_from_args := Dict.get "nproc_per_node" runner_config in
      nproc_per_node <- lift (_get_nproc_per_node None nproc_from_args
                                num_visible_devices) ;;
      let avaliable_addr := Dict.get_default "master_addr" (VStr "localhost") runner_config in
      free <- get_free_port env ;;
      let avaliable_port := Dict.get_default "master_port" (VInt free) runner_config in
      _run_each self p "localhost" avaliable_addr avaliable_port (VInt 1) (VInt 0)
                nproc_per_node with_test dryrun
  end.

Definition _stop_each (self : SSHRunner) (host : string) (node_rank : value) : M unit :=
  record (Call_stop_each host node_rank) ;;
  host_stop_script_file <- _generate_stop_script (config self) host node_rank ;;
  let logging_config := logging (config self) in
  if negb (String.eqb host "localhost") then
    let ssh_port := Dict.get_default "ssh_port" (VInt 22) (runner (config self)) in
    run_ssh_command env host ("mkdir -p " ++ scripts_dir logging_config)
                    (Some ssh_port) false ;;
    (if runner_no_shared_fs (config self) then
       run_scp_command env host host_stop_script_file (scripts_dir logging_config)
                       (Some ssh_port) false
     else ret tt) ;;
    run_ssh_command env host ("bash " ++ host_stop_script_file) (Some ssh_port) false
  else
    run_local_command env ("bash " ++ host_stop_script_file) false.

Definition stop (self : SSHRunner) : M unit :=
  match resources self with
  | None => _stop_each self "localhost" (VInt 0)
  | Some resources =>
      nnodes <- lift (_get_nnodes (Some (Z.of_nat (length resources)))
                        (Dict.get "nnodes" (runner (config self)))) ;;
      for_hosts nnodes (fun node_rank host _ => _stop_each self host (VInt node_rank))
                0 resources
  end.

End Runner.

(** The hosts [_run_each] was entered for, oldest first. *)
Definition dispatched (t : list event) : list (string * value) :=
  flat_map (fun e => match e with
                     | Call_run_each host node_rank => [(host, node_rank)]
                     | _ => []
                     end) t.

(** [list(enumerate(resources))] reduced to host and rank. *)
Fixpoint ranked {V : Type} (start : Z) (items : Dict.t V) : list (string * value) :=
  match items with
  | [] => []
  | (host, _) :: rest => (host, VInt start) :: ranked (start + 1) rest
  end.

(* ===================================================================== *)
(** ** Vocabulary of the properties *)
(* ===================================================================== *)

(** Every character of [s] is in the class [p]. *)
Fixpoint str_all (p : ascii -> bool) (s : string) : bool :=
  match s with
  | EmptyString => true
  | String c r => p c && str_all p r
  end.

(** [s] starts with a character of the class [p]. *)
Definition starts_with (p : ascii -> bool) (s : string) : bool :=
  match s with
  | String c _ => p c
  | EmptyString => false
  end.

(** [s] without the prefix [p]. *)
Fixpoint strip_prefix (p s : string) : option string :=
  match p, s with
  | EmptyString, _ => Some s
  | String a p', String b s' => if Ascii.eqb a b then strip_prefix p' s' else None
  | String _ _, EmptyString => None
  end.

(** [s] starts with a [type=<token>] field: white space, then [type=],
    then a character that is not white space. *)
Definition type_field_follows (s : string) : bool :=
  starts_with isspace s &&
  match strip_prefix "type=" (lstrip s) with
  | Some t => starts_with nonspace t
  | None => false
  end.

(** The number a run of decimal digits writes, after the digits [acc]
    stands for. *)
Fixpoint decimal (acc : Z) (digits : string) : Z :=
  match digits with
  | EmptyString => acc
  | String c r => decimal (10 * acc + digit_val c) r
  end.

(** A line the parser skips: a comment or a blank line. *)
Definition ignored (line : string) : bool :=
  startswith "#" line || String.eqb line EmptyString.

(** The groups of a line of the file that is an entry. *)
Definition entry_of (line : string) : option groups :=
  if ignored (strip line) then None else pattern_search (strip line).

Definition host_of (g : groups) : string := fst (fst g).

(** The text [line] reads: the host [host], white space, [slots=], the
    run of digits [num], and then [rest], which does not go on with a
    digit. *)
Definition entry_line (line host num rest : string) : Prop :=
  exists ws,
    line = host ++ ws ++ "slots=" ++ num ++ rest /\
    host <> EmptyString /\ str_all nonspace host = true /\
    ws <> EmptyString /\ str_all isspace ws = true /\
    num <> EmptyString /\ str_all isdigit num = true /\
    starts_with isdigit rest = false.

(** An override written [lo] or [lo:hi]. *)
Definition override_text (lo : string) (hi : option string) : string :=
  match hi with
  | Some hi => lo ++ ":" ++ hi
  | None => lo
  end.

(** [resolve_nproc_per_node] as the specification words it, on the
    integer the override denotes: the minimum of the sources that are
    present, capped by the device count when there is one; with no
    source, the device count, else 1. *)
Definition resolve_nproc_per_node
           (from_hostfile_slots from_override visible_device_count : option Z) : Z :=
  let capped n := match visible_device_count with Some v => Z.min n v | None => n end in
  match from_hostfile_slots, from_override with
  | Some h, Some a => capped (Z.min h a)
  | Some h, None => capped h
  | None, Some a => capped a
  | None, None => match visible_device_count with Some v => v | None => 1 end
  end.

(** The integer an optional override denotes. *)
Definition denotes (nproc_from_args : option value) (n : option Z) : Prop :=
  match nproc_from_args, n with
  | Some a, Some n => int a = Ok n
  | None, None => True
  | _, _ => False
  end.

(** The tokens hold [--key] directly followed by [text]. *)
Fixpoint carries (key text : string) (tokens : list value) : bool :=
  match tokens with
  | a :: (b :: _) as rest =>
      (eqv a (VStr ("--" ++ key)) && eqv b (VStr text)) || carries key text rest
  | _ => false
  end.

(** The entries [_get_runner_cmd] reads with a default. *)
Definition log_dir_entry (config : Config) : value :=
  Dict.get_default "log_dir" (VStr (details_dir (logging config))) (runner config).
Definition rdzv_id_entry (config : Config) : value :=
  Dict.get_default "rdzv_id" (VStr "default") (runner config).
Definition backend_entry (config : Config) : value :=
  Dict.get_default "backend" (VStr "torchrun") (runner config).
Definition per_node_task (config : Config) : bool :=
  truthy (Dict.get_default "per_node_task" (VBool false) (runner config)).

(** An action that does not enter [_run_each]. *)
Definition quiet {A : Type} (m : M A) : Prop :=
  forall w, dispatched (trace (snd (m w))) = dispatched (trace w).

(** An action that enters [_run_each] for the first [k] hosts of [hosts]
    one after the other, where [k] is at most [bound], and is [bound]
    when the action completes. *)
Definition dispatches {A : Type} (hosts : list (string * value)) (bound : nat)
           (m : M A) : Prop :=
  forall w, exists k : nat,
    dispatched (trace (snd (m w))) = (dispatched (trace w) ++ take k hosts)%list /\
    (k <= bound)%nat /\
    (is_ok (fst (m w)) = true -> k = bound).

(** An action that completes from every state. *)
Definition succeeds {A : Type} (m : M A) : Prop :=
  forall w, is_ok (fst (m w)) = true.

Definition is_str (v : value) : bool :=
  match v with VStr _ => true | _ => false end.

(** A configuration with which every step of [run] before the commands
    completes: a supported task, a device list that is a string, a
    process count that is an integer literal, and a launcher, a log
    directory and a rendezvous id that are strings. *)
Definition launchable (config : Config) : bool :=
  String.eqb (task_type config) "train" &&
  String.eqb (task_backend config) "megatron" &&
  is_ok (count_visible_devices (envs config)) &&
  match Dict.get "nproc_per_node" (runner config) with
  | Some a => is_ok (int a)
  | None => true
  end &&
  is_ok (Path.fspath (log_dir_entry config)) &&
  is_str (backend_entry config) &&
  (eqv (backend_entry config) (VStr "torchrun") ||
   is_ok (Path.fspath (rdzv_id_entry config))).

(** The node count [run] negotiates for a table, as a number of hosts. *)
Definition negotiated (config : Config) (table : ResourceTable) : outcome Z :=
  _get_nnodes (Some (Z.of_nat (length table))) (Dict.get "nnodes" (runner config)).

(** *** Reading a script *)

(** The characters that are not plain. *)
Definition special (c : ascii) : bool :=
  Sh.blank c || Ascii.eqb c ";" || Ascii.eqb c "#" || Ascii.eqb c SQ || Ascii.eqb c "$" ||
  Ascii.eqb c "[" || Ascii.eqb c "]" || Ascii.eqb c ")" || Ascii.eqb c LF ||
  Ascii.eqb c (ascii_of_nat 0) || Ascii.eqb c "*" || Ascii.eqb c "?".

(** The word being read, after the text [p] was added to it. *)
Definition grown (p : string) (w : option (Sh.word * option string))
  : option (Sh.word * option string) :=
  match w with
  | Some (parts, Some text) => Some (parts, Some (text ++ p))
  | Some (parts, None) => Some (parts, Some p)
  | None => Some ([], Some p)
  end.

(** The argument being read inside [$(...)], after [p] was added. *)
Definition grown_arg (p : string) (w : option string) : option string :=
  match w with
  | Some text => Some (text ++ p)
  | None => Some p
  end.


(* ===================================================================== *)
(** ** A cluster of three hosts and its configuration, for the examples *)
(* ===================================================================== *)

Definition hostfile_ex : string :=
  "# cluster" ++ chr LF ++ "worker0 slots=8 type=A100" ++ chr CR ++ chr LF ++
  chr LF ++ "  worker1   slots=4  " ++ chr LF ++ "worker2 slots=16 extra junk".

Definition config_ex : Config := {|
  runner := [("type", VStr "ssh"); ("hostfile", VStr "hosts"); ("nnodes", VStr "2");
             ("per_node_task", VBool true); ("no_python", VBool true)];
  experiment_no_shared_fs := None;
  cmds := Some [("after_stop", VStr "echo stopped")];
  envs := [("CUDA_VISIBLE_DEVICES", VStr "0,1,2,3")];
  task_type := "train";
  task_backend := "megatron";
  entrypoint := "train.py";
  logging := {| log_dir := "/exp/logs"; scripts_dir := "/exp/logs/scripts";
                pids_dir := "/exp/logs/pids"; details_dir := "/exp/logs/details";
                tensorboard_dir := "/exp/tensorboard"; wandb_save_dir := "/exp/wandb" |};
  checkpoint := {| load := "/exp/checkpoints"; save := "/exp/checkpoints" |};
  megatron_args := ["--lr"; "0.1"]
|}.

Definition env_ex : Env := {|
  shell := fun _ _ => Completed 0 EmptyString EmptyString;
  clock := fun _ => "T";
  port_at := fun _ => 2980;
  abspath := fun p => p;
  root_dir := "/repo"
|}.

Definition world_ex : world :=
  World {[ "hosts" := File hostfile_ex 420 ]} [] 0.

Definition table_ex : ResourceTable :=
  [("worker0", ResourceInfo 8 (Some "A100"));
   ("worker1", ResourceInfo 4 None);
   ("worker2", ResourceInfo 16 None)].

Definition runner_ex : SSHRunner :=
  {| config := config_ex; resources := Some table_ex |}.

Definition run_ex : outcome unit * world :=
  bind (SSHRunner_init config_ex) (fun self => run env_ex self false false) world_ex.

(** A per-node configuration that names its own rendezvous endpoint. *)
Definition config_endpoint_ex : Config := {|
  runner := [("per_node_task", VBool true); ("rdzv_endpoint", VStr "10.0.0.1:29500")];
  experiment_no_shared_fs := None;
  cmds := None;
  envs := [];
  task_type := "train";
  task_backend := "megatron";
  entrypoint := "train.py";
  logging := {| log_dir := "/exp/logs"; scripts_dir := "/exp/logs/scripts";
                pids_dir := "/exp/logs/pids"; details_dir := "/exp/logs/details";
                tensorboard_dir := "/exp/tensorboard"; wandb_save_dir := "/exp/wandb" |};
  checkpoint := {| load := "/exp/checkpoints"; save := "/exp/checkpoints" |};
  megatron_args := []
|}.

(** A configuration whose pid directory has a blank in its name. *)
Definition config_blank_ex : Config := {|
  runner := [("type", VStr "ssh")];
  experiment_no_shared_fs := None;
  cmds := Some [("after_stop", VStr "echo stopped")];
  envs := [];
  task_type := "train";
  task_backend := "megatron";
  entrypoint := "train.py";
  logging := {| log_dir := "/exp/my logs"; scripts_dir := "/exp/my logs/scripts";
                pids_dir := "/exp/my logs/pids"; details_dir := "/exp/my logs/details";
                tensorboard_dir := "/exp/tensorboard"; wandb_save_dir := "/exp/wandb" |};
  checkpoint := {| load := "/exp/checkpoints"; save := "/exp/checkpoints" |};
  megatron_args := []
|}.

(** The files of a host on which one pid file holds a pid. *)
Definition pid_recorded (host_pid_file pid : string) : Sh.files :=
  fun path => if String.eqb path host_pid_file then Some (pid ++ chr LF) else None.
(* ===================================================================== *)
(** * Properties *)
(* ===================================================================== *)

Example strip_ex : strip ("  a b " ++ chr LF) = "a b".
Proof. reflexivity. Qed.

Example split_ex : split ":" "3:8" = ["3"; "8"].
Proof. reflexivity. Qed.

Example int_ex : (int (VStr " -1_0 "), int (VStr "3:8"), int (VStr "007")) =
                 (Ok (-10), Raise (ValueError "invalid literal for int() with base 10: '3:8'"), Ok 7).
Proof. vm_compute. reflexivity. Qed.

(** The separators FS to US are white space for [str.strip] and for the
    pattern, not for [int]; the no-break space is white space for all
    three. *)
Example int_space_ex :
  let fs := chr (ascii_of_nat 28) in
  let nbsp := chr (ascii_of_nat 160) in
  strip (fs ++ "3" ++ nbsp) = "3" /\
  int (VStr (nbsp ++ "3")) = Ok 3 /\
  int (VStr (fs ++ "3")) =
  Raise (ValueError "invalid literal for int() with base 10: '\x1c3'").
Proof. vm_compute. repeat split; reflexivity. Qed.

(* ===================================================================== *)
(** ** Strings *)
(* ===================================================================== *)

Lemma contains_app (c : ascii) (a b : string) :
  contains c (a ++ b) = contains c a || contains c b.
Proof.
  induction a as [|x a IH]; simpl; [reflexivity|].
  rewrite IH. apply orb_assoc.
Qed.

Lemma split_without (sep : ascii) (s : string) :
  contains sep s = false -> split sep s = [s].
Proof.
  induction s as [|x s IH]; simpl; [reflexivity|].
  intros H. apply orb_false_elim in H as [Hx Hs].
  rewrite Hx, (IH Hs). reflexivity.
Qed.

Lemma split_at_first (sep : ascii) (lo hi : string) :
  contains sep lo = false ->
  split sep (lo ++ String sep hi) = lo :: split sep hi.
Proof.
  induction lo as [|x lo IH]; simpl.
  - intros _. rewrite Ascii.eqb_refl. reflexivity.
  - intros H. apply orb_false_elim in H as [Hx Hs].
    rewrite Hx, (IH Hs). reflexivity.
Qed.

(* ===================================================================== *)
(** ** ResourceNegotiator *)
(* ===================================================================== *)

Lemma drop_max_nnodes_text (lo : string) (hi : option string) :
  contains ":" lo = false ->
  (forall t, hi = Some t -> contains ":" t = false) ->
  drop_max_nnodes (VStr (override_text lo hi)) = Ok (VStr lo).
Proof.
  intros Hlo Hhi. destruct hi as [t|]; simpl.
  - rewrite contains_app. cbn [contains Ascii.eqb Bool.eqb orb]. rewrite orb_true_r.
    change (":" ++ t) with (String ":" t). rewrite split_at_first by exact Hlo.
    rewrite split_without by (apply Hhi; reflexivity). reflexivity.
  - rewrite Hlo. reflexivity.
Qed.

(** C2. [_get_nnodes] with both inputs present returns the minimum of the
    hostfile count and the override, where an override [lo:hi] counts as
    [lo] alone; with one input it returns that input; with none it fails
    its assertion. *)
Theorem get_nnodes_min (h : Z) (lo : string) (hi : option string) (m : Z) :
  contains ":" lo = false ->
  (forall t, hi = Some t -> contains ":" t = false) ->
  int (VStr lo) = Ok m ->
  _get_nnodes (Some h) (Some (VStr (override_text lo hi))) = Ok (Z.min h m) /\
  _get_nnodes (Some h) (Some (VInt m)) = Ok (Z.min h m) /\
  _get_nnodes None (Some (VStr (override_text lo hi))) = Ok m /\
  _get_nnodes (Some h) None = Ok h /\
  _get_nnodes None None = Raise AssertionError.
Proof.
  intros Hlo Hhi Hint. unfold _get_nnodes.
  rewrite (drop_max_nnodes_text lo hi Hlo Hhi). cbn [obind drop_max_nnodes].
  rewrite Hint. cbn. repeat split; reflexivity.
Qed.

Lemma get_nnodes_min_witness :
  _get_nnodes (Some 5) (Some (VStr "3:8")) = Ok 3.
Proof.
  refine (proj1 (get_nnodes_min 5 "3" (Some "8") 3 eq_refl _ _)).
  - intros t [= <-]. reflexivity.
  - vm_compute. reflexivity.
Defined.

Example get_nnodes_examples :
  _get_nnodes (Some 5) (Some (VStr "3")) = Ok 3 /\
  _get_nnodes (Some 5) (Some (VStr "3:8")) = Ok 3 /\
  _get_nnodes None (Some (VStr "4")) = Ok 4 /\
  _get_nnodes (Some 5) None = Ok 5.
Proof. repeat split; reflexivity. Qed.

Lemma split_nonempty (sep : ascii) (s : string) : split sep s <> [].
Proof.
  induction s as [|c s IH]; simpl; [discriminate|].
  destruct (Ascii.eqb c sep); [discriminate|].
  destruct (split sep s); [contradiction|discriminate].
Qed.

(** The device count [run] derives from [CUDA_VISIBLE_DEVICES] is the
    number of fields of a text that is not empty: it is at least 1. *)
Lemma count_visible_devices_pos (user_envs : Dict.t value) (d : Z) :
  count_visible_devices user_envs = Ok (Some d) -> 1 <= d.
Proof.
  unfold count_visible_devices.
  destruct (Dict.get "CUDA_VISIBLE_DEVICES" user_envs) as [x|]; [|discriminate].
  destruct (truthy x); [|discriminate].
  destruct x as [b|k|s]; try discriminate.
  intros [= <-]. pose proof (split_nonempty "," s) as Hne.
  destruct (split "," s); [contradiction|]. cbn [length]. lia.
Qed.

(** A device count of 0, which [run] never passes, counts as no device
    count at all: the test is [if num_visible_devices:]. *)
Example nproc_zero_devices_as_absent :
  _get_nproc_per_node (Some 8) (Some (VStr "4")) (Some 0) = Ok (VInt 4) /\
  _get_nproc_per_node None None (Some 0) = Ok (VInt 1).
Proof. split; reflexivity. Qed.

(** C3. With a device count that, when there is one, is at least 1, as
    the count [run] derives is, the result of [_get_nproc_per_node]
    denotes the number the rule gives: the minimum of the hostfile slots
    and the override that are given, capped by the device count when it
    is known; without slots and override, the device count when it is
    known, else 1.  The result is that integer, except with the
    override alone and no device count, where it is the override as it
    was given. *)
Theorem get_nproc_per_node_rule (h : option Z) (a : option value) (n v : option Z) :
  denotes a n ->
  (forall d, v = Some d -> 1 <= d) ->
  exists r,
    _get_nproc_per_node h a v = Ok r /\
    int r = Ok (resolve_nproc_per_node h n v) /\
    match h, a, v with
    | None, Some override, None => r = override
    | _, _, _ => r = VInt (resolve_nproc_per_node h n v)
    end.
Proof.
  intros Hden Hdev.
  assert (Hk : known v = v).
  { destruct v as [d|]; [|reflexivity]. simpl.
    specialize (Hdev d eq_refl). destruct (Z.eqb_spec d 0); [lia|reflexivity]. }
  unfold _get_nproc_per_node, resolve_nproc_per_node. rewrite Hk. clear Hk Hdev.
  destruct h as [h|], a as [a|], n as [n|]; simpl in Hden; try contradiction.
  - rewrite Hden. simpl. destruct v; eexists; repeat split; reflexivity.
  - destruct v; eexists; repeat split; reflexivity.
  - destruct v as [d|].
    + rewrite Hden. simpl. eexists; repeat split; reflexivity.
    + exists a. repeat split. exact Hden.
  - destruct v; eexists; repeat split; reflexivity.
Qed.

Lemma get_nproc_per_node_rule_witness :
  _get_nproc_per_node (Some 8) (Some (VStr "4")) (Some 2) = Ok (VInt 2).
Proof.
  assert (H : exists r,
             _get_nproc_per_node (Some 8) (Some (VStr "4")) (Some 2) = Ok r /\
             int r = Ok (resolve_nproc_per_node (Some 8) (Some 4) (Some 2)) /\
             r = VInt (resolve_nproc_per_node (Some 8) (Some 4) (Some 2))).
  { apply (get_nproc_per_node_rule (Some 8) (Some (VStr "4")) (Some 4) (Some 2)).
    - vm_compute. reflexivity.
    - intros d [= <-]. lia. }
  destruct H as (r & Hr & _ & ->). exact Hr.
Defined.

Example get_nproc_per_node_examples :
  _get_nproc_per_node (Some 8) (Some (VStr "4")) (Some 2) = Ok (VInt 2) /\
  _get_nproc_per_node (Some 8) None None = Ok (VInt 8) /\
  _get_nproc_per_node None None None = Ok (VInt 1).
Proof. repeat split; reflexivity. Qed.

(** C8. With the override alone and no usable device count,
    [_get_nproc_per_node] returns the override as it was given: a string
    stays a string, where every other branch returns an integer. *)
Theorem get_nproc_per_node_returns_str (s : string) :
  _get_nproc_per_node None (Some (VStr s)) None = Ok (VStr s) /\
  _get_nproc_per_node None (Some (VStr s)) (Some 0) = Ok (VStr s).
Proof. split; reflexivity. Qed.

Example get_nproc_per_node_str_4 :
  _get_nproc_per_node None (Some (VStr "4")) None = Ok (VStr "4") /\
  _get_nproc_per_node None (Some (VStr "4")) (Some 2) = Ok (VInt 2).
Proof. split; reflexivity. Qed.

(* ===================================================================== *)
(** ** The matcher *)
(* ===================================================================== *)

Lemma str_app_assoc (a b c : string) : (a ++ b) ++ c = a ++ (b ++ c).
Proof. induction a as [|x a IH]; simpl; [reflexivity|]. now rewrite IH. Qed.

Lemma str_app_nil_r (a : string) : a ++ EmptyString = a.
Proof. induction a as [|x a IH]; simpl; [reflexivity|]. now rewrite IH. Qed.

Lemma str_app_chr (a b : string) (c : ascii) : (a ++ chr c) ++ b = a ++ String c b.
Proof. now rewrite str_app_assoc. Qed.

Lemma plus_stuck {R} cls (k : string -> string -> option R) taken s :
  starts_with cls s = false -> Re.plus cls k taken s = None.
Proof. destruct s as [|c r]; simpl; [reflexivity|]. now intros ->. Qed.

(** A match of [cls+] took a non-empty run of the class, and the
    continuation accepted what follows. *)
Lemma plus_inv {R} cls (k : string -> string -> option R) taken s m :
  Re.plus cls k taken s = Some m ->
  exists a rest, s = a ++ rest /\ a <> EmptyString /\ str_all cls a = true /\
                 k (taken ++ a) rest = Some m.
Proof.
  revert taken. induction s as [|c r IH]; intros taken; simpl; [discriminate|].
  destruct (cls c) eqn:Hc; [|discriminate].
  destruct (Re.plus cls k (taken ++ chr c) r) as [m'|] eqn:Hp.
  - intros [= ->]. apply IH in Hp as (a & rest & -> & _ & Hall & Hk).
    exists (String c a), rest. repeat split; [discriminate|simpl; now rewrite Hc|].
    now rewrite <- str_app_chr.
  - intros Hk. exists (chr c), r. repeat split; [discriminate|simpl; now rewrite Hc|exact Hk].
Qed.

(** Before a continuation that accepts whatever it is given, [cls+]
    takes the whole run. *)
Lemma plus_none {R} cls (k : string -> string -> option R) taken s :
  (forall t r, k t r <> None) -> Re.plus cls k taken s = None ->
  starts_with cls s = false.
Proof.
  intros Hk. destruct s as [|c r]; simpl; [reflexivity|].
  destruct (cls c); [|reflexivity].
  destruct (Re.plus cls k (taken ++ chr c) r); [discriminate|].
  intros H. now apply Hk in H.
Qed.

Lemma plus_inv_max {R} cls (k : string -> string -> option R) taken s m :
  (forall t r, k t r <> None) -> Re.plus cls k taken s = Some m ->
  exists a rest, s = a ++ rest /\ a <> EmptyString /\ str_all cls a = true /\
                 starts_with cls rest = false /\ k (taken ++ a) rest = Some m.
Proof.
  intros Htotal. revert taken. induction s as [|c r IH]; intros taken; simpl; [discriminate|].
  destruct (cls c) eqn:Hc; [|discriminate].
  destruct (Re.plus cls k (taken ++ chr c) r) as [m'|] eqn:Hp.
  - intros [= ->]. apply IH in Hp as (a & rest & -> & _ & Hall & Hmax & Hk).
    exists (String c a), rest. repeat split; [discriminate|simpl; now rewrite Hc|exact Hmax|].
    now rewrite <- str_app_chr.
  - intros Hk. exists (chr c), r.
    repeat split; [discriminate|simpl; now rewrite Hc| |exact Hk].
    exact (plus_none cls k _ r Htotal Hp).
Qed.

(** The longest run is tried first. *)
Lemma plus_longest {R} cls (k : string -> string -> option R) taken a rest m :
  a <> EmptyString -> str_all cls a = true -> starts_with cls rest = false ->
  k (taken ++ a) rest = Some m ->
  Re.plus cls k taken (a ++ rest) = Some m.
Proof.
  revert taken. induction a as [|c a IH]; intros taken Hne Hall Hrest Hk; [contradiction|].
  simpl in Hall. apply andb_prop in Hall as [Hc Hall]. simpl. rewrite Hc.
  destruct a as [|d a].
  - simpl. rewrite plus_stuck by exact Hrest. exact Hk.
  - rewrite (IH (taken ++ chr c)); [reflexivity|discriminate|exact Hall|exact Hrest|].
    now rewrite str_app_chr.
Qed.

Lemma lit_app {R} p (k : string -> option R) s : Re.lit p k (p ++ s) = k s.
Proof. induction p as [|a p IH]; simpl; [reflexivity|]. now rewrite Ascii.eqb_refl. Qed.

Lemma lit_inv {R} p (k : string -> option R) s m :
  Re.lit p k s = Some m -> exists s', s = p ++ s' /\ k s' = Some m.
Proof.
  revert s. induction p as [|a p IH]; intros s; simpl.
  - intros H. now exists s.
  - destruct s as [|b s]; [discriminate|].
    destruct (Ascii.eqb_spec a b) as [->|]; [|discriminate].
    intros H. apply IH in H as (s' & -> & Hk). now exists s'.
Qed.

(** What the groups of a match are made of. *)
Lemma pattern_search_groups line host num ty :
  pattern_search line = Some (host, num, ty) ->
  host <> EmptyString /\ str_all nonspace host = true /\
  num <> EmptyString /\ str_all isdigit num = true.
Proof.
  unfold pattern_search. intros H.
  apply plus_inv in H as (h & s1 & _ & Hh & Hhall & H). cbv beta in H.
  apply plus_inv in H as (w & s2 & _ & _ & _ & H). cbv beta in H.
  apply lit_inv in H as (s3 & _ & H).
  apply plus_inv in H as (d & s4 & _ & Hd & Hdall & H). cbv beta in H.
  unfold Re.optional in H.
  match type of H with
  | match ?body with _ => _ end = _ => destruct body as [g|] eqn:Hbody
  end.
  - injection H as ->.
    apply plus_inv in Hbody as (w' & s5 & _ & _ & _ & Hbody). cbv beta in Hbody.
    apply lit_inv in Hbody as (s6 & _ & Hbody).
    apply plus_inv in Hbody as (t & s7 & _ & _ & _ & Hbody). cbv beta in Hbody.
    injection Hbody as <- <- _. now repeat split.
  - injection H as <- <- _. now repeat split.
Qed.

(** The text of a line the pattern matches, around its groups. *)
Lemma pattern_search_shape line host num ty :
  pattern_search line = Some (host, num, ty) ->
  exists rest, entry_line line host num rest.
Proof.
  unfold pattern_search. intros H.
  apply plus_inv in H as (h & s1 & -> & Hh & Hhall & H). cbv beta in H.
  apply plus_inv in H as (w & s2 & -> & Hw & Hwall & H). cbv beta in H.
  apply lit_inv in H as (s3 & -> & H).
  apply plus_inv_max in H as (d & s4 & -> & Hd & Hdall & Hmax & H).
  2:{ intros t r. unfold Re.optional.
      match goal with |- match ?body with _ => _ end <> _ => destruct body end;
        discriminate. }
  cbv beta in H. cbn [append] in H.
  assert (Hg : host = h /\ num = d).
  { unfold Re.optional in H.
    match type of H with
    | match ?body with _ => _ end = _ => destruct body as [g|] eqn:Hbody
    end.
    - injection H as ->.
      apply plus_inv in Hbody as (w' & s5 & _ & _ & _ & Hbody). cbv beta in Hbody.
      apply lit_inv in Hbody as (s6 & _ & Hbody).
      apply plus_inv in Hbody as (t & s7 & _ & _ & _ & Hbody). cbv beta in Hbody.
      injection Hbody as <- <- _. now split.
    - injection H as <- <- _. now split. }
  destruct Hg as [-> ->]. exists s4, w. now repeat split.
Qed.

(** A line made of a host, white space, [slots=], digits, and then
    something that is neither a digit nor a [type=] field. *)
Lemma pattern_search_prefix host ws num trailing :
  host <> EmptyString -> str_all nonspace host = true ->
  ws <> EmptyString -> str_all isspace ws = true ->
  num <> EmptyString -> str_all isdigit num = true ->
  starts_with isdigit trailing = false ->
  type_field_follows trailing = false ->
  pattern_search (host ++ ws ++ "slots=" ++ num ++ trailing) = Some (host, num, None).
Proof.
  intros Hh Hhall Hw Hwall Hn Hnall Hdig Hty. unfold pattern_search.
  apply plus_longest; [exact Hh|exact Hhall| |].
  { destruct ws as [|c ws]; [contradiction|]. simpl in *. unfold nonspace.
    apply andb_prop in Hwall as [-> _]. reflexivity. }
  apply plus_longest; [exact Hw|exact Hwall|reflexivity|].
  rewrite lit_app.
  apply plus_longest; [exact Hn|exact Hnall|exact Hdig|].
  unfold Re.optional.
  match goal with
  | |- match ?body with _ => _ end = _ => destruct body as [g|] eqn:Hbody
  end; [exfalso|reflexivity].
  apply plus_inv in Hbody as (w' & s5 & -> & Hw' & Hw'all & Hbody). cbv beta in Hbody.
  apply lit_inv in Hbody as (s6 & -> & Hbody).
  apply plus_inv in Hbody as (t & s7 & -> & Ht & Htall & _).
  unfold type_field_follows in Hty.
  assert (Hl : lstrip (w' ++ "type=" ++ t ++ s7) = "type=" ++ t ++ s7).
  { clear -Hw'all. induction w' as [|c w' IH]; [reflexivity|].
    simpl in *. apply andb_prop in Hw'all as [-> Hall]. now apply IH. }
  rewrite Hl in Hty.
  destruct w' as [|c w']; [contradiction|]. simpl in Hw'all.
  apply andb_prop in Hw'all as [Hc _].
  destruct t as [|x t]; [contradiction|]. simpl in Htall.
  apply andb_prop in Htall as [Hx _].
  simpl in Hty. rewrite Hc, Hx in Hty. discriminate.
Qed.

(* ===================================================================== *)
(** ** Stripping and integer literals *)
(* ===================================================================== *)

Lemma isdigit_nonspace (c : ascii) : isdigit c = true -> nonspace c = true.
Proof.
  unfold isdigit, nonspace, isspace. generalize (nat_of_ascii c). intros n H.
  apply andb_prop in H as [H1 H2]. apply Nat.leb_le in H1. apply Nat.leb_le in H2.
  apply negb_true_iff. repeat (apply orb_false_intro).
  - apply andb_false_intro2, Nat.leb_gt; lia.
  - apply andb_false_intro2, Nat.leb_gt; lia.
  - apply Nat.eqb_neq; lia.
  - apply Nat.eqb_neq; lia.
Qed.

Lemma isdigit_not_int_space (c : ascii) : isdigit c = true -> int_isspace c = false.
Proof.
  unfold isdigit, int_isspace. generalize (nat_of_ascii c). intros n H.
  apply andb_prop in H as [H1 H2]. apply Nat.leb_le in H1. apply Nat.leb_le in H2.
  repeat (apply orb_false_intro).
  - apply andb_false_intro2, Nat.leb_gt; lia.
  - apply Nat.eqb_neq; lia.
  - apply Nat.eqb_neq; lia.
  - apply Nat.eqb_neq; lia.
Qed.

Lemma str_all_impl (p q : ascii -> bool) (s : string) :
  (forall c, p c = true -> q c = true) -> str_all p s = true -> str_all q s = true.
Proof.
  intros Hpq. induction s as [|c s IH]; simpl; [reflexivity|].
  intros H. apply andb_prop in H as [Hc Hs]. now rewrite (Hpq c Hc), IH.
Qed.

Lemma lstrip_nonspace (s : string) : starts_with nonspace s = true -> lstrip s = s.
Proof.
  destruct s as [|c s]; simpl; [reflexivity|]. unfold nonspace.
  intros H. apply negb_true_iff in H. now rewrite H.
Qed.

Lemma rstrip_cons (c : ascii) (s : string) :
  isspace c = false \/ rstrip s <> EmptyString ->
  rstrip (String c s) = String c (rstrip s).
Proof.
  simpl. destruct (rstrip s) as [|d r]; [|reflexivity].
  intros [-> | H]; [reflexivity|contradiction].
Qed.

Lemma rstrip_app_nonspace (a b : string) :
  str_all nonspace a = true -> rstrip (a ++ b) = a ++ rstrip b.
Proof.
  induction a as [|c a IH]; [reflexivity|]. cbn [str_all]. intros H.
  apply andb_prop in H as [Hc Ha]. apply negb_true_iff in Hc.
  change (String c a ++ b) with (String c (a ++ b)).
  rewrite rstrip_cons by now left. now rewrite IH.
Qed.

Lemma rstrip_app_keep (a b : string) :
  rstrip b <> EmptyString -> rstrip (a ++ b) = a ++ rstrip b.
Proof.
  intros Hb. induction a as [|c a IH]; [reflexivity|].
  change (String c a ++ b) with (String c (a ++ b)).
  rewrite rstrip_cons; [now rewrite IH|].
  right. rewrite IH. destruct a; [exact Hb|discriminate].
Qed.

Lemma starts_with_all (p : ascii -> bool) (s : string) :
  s <> EmptyString -> str_all p s = true -> starts_with p s = true.
Proof.
  destruct s as [|c s]; [contradiction|]. simpl. intros _ H.
  now apply andb_prop in H as [-> _].
Qed.

Lemma strip_nonspace (s : string) : str_all nonspace s = true -> strip s = s.
Proof.
  intros H. unfold strip. destruct s as [|c s]; [reflexivity|].
  rewrite lstrip_nonspace by (apply starts_with_all; [discriminate|exact H]).
  rewrite <- (str_app_nil_r (String c s)) at 1.
  rewrite rstrip_app_nonspace by exact H. apply str_app_nil_r.
Qed.

(** What [strip] leaves of a line that starts with an entry. *)
Lemma strip_entry_line (host ws num rest : string) :
  host <> EmptyString -> str_all nonspace host = true ->
  num <> EmptyString -> str_all isdigit num = true ->
  strip (host ++ ws ++ "slots=" ++ num ++ rest) =
  host ++ ws ++ "slots=" ++ num ++ rstrip rest.
Proof.
  intros Hh Hhall Hn Hnall. unfold strip.
  assert (Hnum : str_all nonspace num = true)
    by (eapply str_all_impl; [apply isdigit_nonspace|exact Hnall]).
  rewrite lstrip_nonspace.
  2:{ destruct host as [|c host]; [contradiction|]. simpl in *.
      now apply andb_prop in Hhall as [-> _]. }
  assert (Htail : rstrip ("slots=" ++ num ++ rest) = "slots=" ++ num ++ rstrip rest).
  { rewrite (rstrip_app_nonspace "slots=") by reflexivity.
    now rewrite rstrip_app_nonspace. }
  rewrite (rstrip_app_nonspace host) by exact Hhall.
  rewrite (rstrip_app_keep ws) by (rewrite Htail; discriminate).
  now rewrite Htail.
Qed.

Lemma digit_val_nonneg (c : ascii) : isdigit c = true -> 0 <= digit_val c.
Proof.
  unfold isdigit, digit_val. intros H. apply andb_prop in H as [H _].
  apply Nat.leb_le in H. lia.
Qed.

Lemma decimal_nonneg (s : string) (acc : Z) :
  str_all isdigit s = true -> 0 <= acc -> 0 <= decimal acc s.
Proof.
  revert acc. induction s as [|c s IH]; intros acc; simpl; [auto|].
  intros H Hacc. apply andb_prop in H as [Hc Hs].
  apply IH; [exact Hs|]. pose proof (digit_val_nonneg c Hc). lia.
Qed.

(** Scanning a run of digits reads all of it. *)
Lemma int_scan_digits (s : string) (b : bool) (acc digits : Z) :
  s <> EmptyString -> str_all isdigit s = true ->
  int_scan b acc digits s =
  Some (decimal acc s, digits + Z.of_nat (String.length s), EmptyString).
Proof.
  revert b acc digits. induction s as [|c s IH]; intros b acc digits Hne; [contradiction|].
  cbn [str_all int_scan decimal String.length]. intros H.
  apply andb_prop in H as [Hc Hs]. rewrite Hc.
  destruct s as [|d s].
  - cbn [int_scan decimal String.length]. repeat (f_equal; try lia).
  - rewrite IH by (discriminate || exact Hs). cbn [String.length].
    repeat (f_equal; try lia).
Qed.

(** [int] reads a run of digits that is within the limit as the number
    it writes in base 10. *)
Lemma int_of_digits (num : string) :
  num <> EmptyString -> str_all isdigit num = true ->
  Z.of_nat (String.length num) <= int_max_str_digits ->
  int (VStr num) = Ok (decimal 0 num).
Proof.
  intros Hne Hall Hlen. cbn [int]. unfold int_of_str.
  destruct num as [|c r]; [contradiction|].
  assert (Hc : isdigit c = true) by (simpl in Hall; now apply andb_prop in Hall as [-> _]).
  cbn [int_skip]. rewrite (isdigit_not_int_space c Hc).
  destruct (Ascii.eqb_spec c "+") as [->|_]; [discriminate|].
  destruct (Ascii.eqb_spec c "-") as [->|_]; [discriminate|].
  cbn [startswith].
  destruct (Ascii.eqb_spec "_" c) as [<-|_]; [discriminate|]. cbn [andb].
  rewrite int_scan_digits by (discriminate || exact Hall).
  destruct (Z.ltb_spec int_max_str_digits (0 + Z.of_nat (String.length (String c r))));
    [lia|].
  destruct (Z.eqb_spec (0 + Z.of_nat (String.length (String c r))) 0) as [H0|_];
    [cbn [String.length] in H0; lia|].
  reflexivity.
Qed.

(** Beyond the limit [int] refuses the digits. *)
Lemma int_of_digits_limit (num : string) :
  str_all isdigit num = true ->
  int_max_str_digits < Z.of_nat (String.length num) ->
  int (VStr num) = Raise (err_int_limit (Z.of_nat (String.length num))).
Proof.
  intros Hall Hlen. cbn [int]. unfold int_of_str.
  destruct num as [|c r]; [cbn in Hlen; unfold int_max_str_digits in Hlen; lia|].
  assert (Hc : isdigit c = true) by (simpl in Hall; now apply andb_prop in Hall as [-> _]).
  cbn [int_skip]. rewrite (isdigit_not_int_space c Hc).
  destruct (Ascii.eqb_spec c "+") as [->|_]; [discriminate|].
  destruct (Ascii.eqb_spec c "-") as [->|_]; [discriminate|].
  cbn [startswith].
  destruct (Ascii.eqb_spec "_" c) as [<-|_]; [discriminate|]. cbn [andb].
  rewrite int_scan_digits by (discriminate || exact Hall).
  destruct (Z.ltb_spec int_max_str_digits (0 + Z.of_nat (String.length (String c r))));
    [reflexivity|lia].
Qed.

(* ===================================================================== *)
(** ** HostfileParser *)
(* ===================================================================== *)

Lemma dict_mem_set_eq {V} (k : string) (v : V) (d : Dict.t V) :
  Dict.mem k (Dict.set k v d) = true.
Proof.
  unfold Dict.mem. induction d as [|[k' v'] d IH]; simpl.
  - now rewrite String.eqb_refl.
  - destruct (String.eqb_spec k' k); simpl.
    + now rewrite String.eqb_refl.
    + destruct (String.eqb_spec k' k); [contradiction|exact IH].
Qed.

Lemma dict_mem_set_mono {V} (h k : string) (v : V) (d : Dict.t V) :
  Dict.mem h d = true -> Dict.mem h (Dict.set k v d) = true.
Proof.
  unfold Dict.mem. induction d as [|[k' v'] d IH]; simpl; [discriminate|].
  destruct (String.eqb_spec k' h) as [->|Hne].
  - intros _. destruct (String.eqb_spec h k) as [->|]; simpl.
    + now rewrite String.eqb_refl.
    + now rewrite String.eqb_refl.
  - intros H. destruct (String.eqb_spec k' k) as [->|]; simpl.
    + destruct (String.eqb_spec k h); [contradiction|exact H].
    + destruct (String.eqb_spec k' h); [contradiction|now apply IH].
Qed.

Lemma dict_set_fresh {V} (k : string) (v : V) (d : Dict.t V) :
  Dict.mem k d = false -> Dict.set k v d = (d ++ [(k, v)])%list.
Proof.
  unfold Dict.mem. induction d as [|[k' v'] d IH]; simpl; [reflexivity|].
  destruct (String.eqb_spec k' k); [discriminate|]. intros H. now rewrite IH.
Qed.

(** One turn of the loop, by the kind of the line. *)
Lemma parse_lines_cons (line : string) (rest : list string) (acc : ResourceTable) :
  parse_lines (line :: rest) acc =
  if ignored (strip line) then parse_lines rest acc
  else match pattern_search (strip line) with
       | Some (host, num, ty) =>
           obind (int (VStr num)) (fun n =>
           if Dict.mem host acc then Raise (err_duplicate host)
           else parse_lines rest (Dict.set host (ResourceInfo n (or_none ty)) acc))
       | None => Raise (err_invalid (strip line))
       end.
Proof. reflexivity. Qed.

(** One turn either raises or goes on with a table that has kept its
    hosts. *)
Lemma parse_lines_turn (line : string) (rest : list string) (acc : ResourceTable) :
  (exists e, parse_lines (line :: rest) acc = Raise e) \/
  (exists acc', parse_lines (line :: rest) acc = parse_lines rest acc' /\
                forall h, Dict.mem h acc = true -> Dict.mem h acc' = true).
Proof.
  rewrite parse_lines_cons. destruct (ignored (strip line)).
  - right. now exists acc.
  - destruct (pattern_search (strip line)) as [[[host num] ty]|]; [|left; eauto].
    destruct (int (VStr num)) as [n|e]; simpl; [|left; eauto].
    destruct (Dict.mem host acc); [left; eauto|].
    right. eexists. split; [reflexivity|]. intros h. apply dict_mem_set_mono.
Qed.

Lemma parse_lines_invalid (lines : list string) (acc : ResourceTable) (line : string) :
  line ∈ lines -> ignored (strip line) = false -> pattern_search (strip line) = None ->
  exists e, parse_lines lines acc = Raise e.
Proof.
  intros Hin Hign Hnone. revert acc.
  induction lines as [|l lines IH]; intros acc; [now apply elem_of_nil in Hin|].
  apply elem_of_cons in Hin as [<-|Hin].
  - rewrite parse_lines_cons, Hign, Hnone. eauto.
  - destruct (parse_lines_turn l lines acc) as [?|(acc' & -> & _)]; [assumption|].
    now apply IH.
Qed.

Lemma parse_lines_seen (lines : list string) (acc : ResourceTable) (line : string) g :
  line ∈ lines -> entry_of line = Some g -> Dict.mem (host_of g) acc = true ->
  exists e, parse_lines lines acc = Raise e.
Proof.
  intros Hin Hentry. revert acc.
  induction lines as [|l lines IH]; intros acc Hmem; [now apply elem_of_nil in Hin|].
  apply elem_of_cons in Hin as [<-|Hin].
  - rewrite parse_lines_cons. unfold entry_of in Hentry.
    destruct (ignored (strip line)); [discriminate|]. rewrite Hentry.
    destruct g as [[host num] ty]. unfold host_of in Hmem. simpl in Hmem.
    destruct (int (VStr num)); simpl; [rewrite Hmem|]; eauto.
  - destruct (parse_lines_turn l lines acc) as [?|(acc' & -> & Hkeep)]; [assumption|].
    apply IH; auto.
Qed.

Lemma parse_lines_twice (pre rest : list string) (acc : ResourceTable) l1 l2 g1 g2 :
  l2 ∈ rest -> entry_of l1 = Some g1 -> entry_of l2 = Some g2 ->
  host_of g1 = host_of g2 ->
  exists e, parse_lines (pre ++ l1 :: rest) acc = Raise e.
Proof.
  intros Hin H1 H2 Hhost. revert acc.
  induction pre as [|l pre IH]; intros acc.
  - cbn [app]. rewrite parse_lines_cons. unfold entry_of in H1.
    destruct (ignored (strip l1)); [discriminate|]. rewrite H1.
    destruct g1 as [[host num] ty]. unfold host_of in Hhost at 1. simpl in Hhost.
    destruct (int (VStr num)); simpl; [|eauto].
    destruct (Dict.mem host acc); [eauto|].
    apply (parse_lines_seen rest _ l2 g2 Hin H2).
    rewrite <- Hhost. apply dict_mem_set_eq.
  - change ((l :: pre) ++ l1 :: rest)%list with (l :: (pre ++ l1 :: rest))%list.
    destruct (parse_lines_turn l (pre ++ l1 :: rest)%list acc) as [?|(acc' & -> & _)];
      [assumption|apply IH].
Qed.

Lemma parse_lines_all_ignored (lines : list string) (acc : ResourceTable) :
  (forall line, line ∈ lines -> ignored (strip line) = true) ->
  parse_lines lines acc = Ok acc.
Proof.
  induction lines as [|l lines IH]; intros H; [reflexivity|].
  rewrite parse_lines_cons, (H l) by apply list_elem_of_here.
  apply IH. intros line Hin. apply H. now apply list_elem_of_further.
Qed.

(** Every entry of the table the loop returns was there before, or
    comes from a line that is an entry for its host, with the slots
    [int] read from the digits of the line. *)
Lemma parse_lines_entries (lines : list string) (acc t : ResourceTable) :
  parse_lines lines acc = Ok t ->
  forall h i, (h, i) ∈ t ->
    (h, i) ∈ acc \/
    exists line num ty, line ∈ lines /\ entry_of line = Some (h, num, ty) /\
                        int (VStr num) = Ok (slots i).
Proof.
  revert acc. induction lines as [|l lines IH]; intros acc.
  - intros [= ->]. auto.
  - rewrite parse_lines_cons. destruct (ignored (strip l)) eqn:Hign.
    + intros Hp h i Hin. destruct (IH _ Hp h i Hin) as [?|(line & num & ty & Hl & He)];
        [now left|right].
      exists line, num, ty. split; [now apply list_elem_of_further|exact He].
    + destruct (pattern_search (strip l)) as [[[host num] ty]|] eqn:Hm; [|discriminate].
      destruct (int (VStr num)) as [n|] eqn:Hint; [|discriminate]. cbn [obind].
      destruct (Dict.mem host acc) eqn:Hmem; [discriminate|].
      intros Hp h i Hin.
      destruct (IH _ Hp h i Hin) as [Hacc|(line & num' & ty' & Hl & He)].
      * rewrite dict_set_fresh in Hacc by exact Hmem.
        apply elem_of_app in Hacc as [Hacc|Hnew]; [now left|right].
        apply list_elem_of_singleton in Hnew as [= -> ->].
        exists l, num, ty. split; [apply list_elem_of_here|].
        split; [|exact Hint]. unfold entry_of. now rewrite Hign, Hm.
      * right. exists line, num', ty'. split; [now apply list_elem_of_further|exact He].
Qed.

(** The digits [int] accepts are within the limit, and it reads them
    as the number they write. *)
Lemma int_digits_value (num : string) (n : Z) :
  num <> EmptyString -> str_all isdigit num = true -> int (VStr num) = Ok n ->
  n = decimal 0 num /\ 0 <= n /\ Z.of_nat (String.length num) <= int_max_str_digits.
Proof.
  intros Hne Hall Hint.
  destruct (Z.le_gt_cases (Z.of_nat (String.length num)) int_max_str_digits) as [Hle|Hgt].
  - rewrite (int_of_digits num Hne Hall Hle) in Hint. injection Hint as <-.
    split; [reflexivity|]. split; [|exact Hle]. now apply decimal_nonneg.
  - rewrite (int_of_digits_limit num Hall Hgt) in Hint. discriminate.
Qed.

Lemma rstrip_prefix (s : string) : exists tail, s = rstrip s ++ tail.
Proof.
  induction s as [|c s [tail IH]]; [now exists EmptyString|]. simpl.
  destruct (rstrip s) as [|d r].
  - destruct (isspace c); [now exists (String c s)|now exists s].
  - exists tail. simpl. f_equal. exact IH.
Qed.

Lemma starts_with_rstrip (p : ascii -> bool) (s : string) :
  starts_with p s = false -> starts_with p (rstrip s) = false.
Proof.
  destruct (rstrip_prefix s) as [tail H]. intros Hs. rewrite H in Hs.
  destruct (rstrip s); [reflexivity|exact Hs].
Qed.

Lemma strip_prefix_inv (p s t : string) : strip_prefix p s = Some t -> s = p ++ t.
Proof.
  revert s. induction p as [|a p IH]; intros s; simpl; [now intros [= ->]|].
  destruct s as [|b s]; [discriminate|].
  destruct (Ascii.eqb_spec a b) as [->|]; [|discriminate].
  intros H. now rewrite (IH _ H).
Qed.

Lemma strip_prefix_app (p t : string) : strip_prefix p (p ++ t) = Some t.
Proof. induction p as [|a p IH]; simpl; [reflexivity|]. now rewrite Ascii.eqb_refl. Qed.

Lemma lstrip_app (a b : string) :
  lstrip a <> EmptyString -> lstrip (a ++ b) = lstrip a ++ b.
Proof.
  induction a as [|c a IH]; simpl; [contradiction|].
  destruct (isspace c); [exact IH|reflexivity].
Qed.

Lemma type_field_follows_app (a b : string) :
  type_field_follows a = true -> type_field_follows (a ++ b) = true.
Proof.
  unfold type_field_follows. intros H. apply andb_prop in H as [Hs Ht].
  destruct (strip_prefix "type=" (lstrip a)) as [t|] eqn:Hp; [|discriminate].
  apply strip_prefix_inv in Hp.
  rewrite lstrip_app by (rewrite Hp; discriminate).
  rewrite Hp, str_app_assoc, strip_prefix_app.
  destruct a as [|c a]; [discriminate|]. destruct t as [|d t]; [discriminate|].
  simpl in *. now rewrite Hs, Ht.
Qed.

Lemma type_field_follows_rstrip (s : string) :
  type_field_follows s = false -> type_field_follows (rstrip s) = false.
Proof.
  intros H. destruct (type_field_follows (rstrip s)) eqn:Hr; [|reflexivity].
  destruct (rstrip_prefix s) as [tail Hs].
  apply (type_field_follows_app _ tail) in Hr. rewrite <- Hs in Hr. congruence.
Qed.

(** C10. The pattern is matched at the start of the line only: a line
    made of a host, white space, [slots=] and a run of digits that [int]
    accepts is an entry whatever follows the digits, as long as what
    follows neither goes on with a digit nor is a [type=] field.  The
    host is recorded with the number the digits write and no type, and
    the loop goes on with the next line. *)
Theorem trailing_text_ignored (host ws num rest : string) (lines : list string)
        (resources : ResourceTable) :
  host <> EmptyString -> str_all nonspace host = true -> startswith "#" host = false ->
  ws <> EmptyString -> str_all isspace ws = true ->
  num <> EmptyString -> str_all isdigit num = true ->
  Z.of_nat (String.length num) <= int_max_str_digits ->
  starts_with isdigit rest = false ->
  type_field_follows rest = false ->
  Dict.mem host resources = false ->
  int (VStr num) = Ok (decimal 0 num) /\
  parse_lines ((host ++ ws ++ "slots=" ++ num ++ rest) :: lines) resources =
  parse_lines lines (resources ++ [(host, ResourceInfo (decimal 0 num) None)])%list.
Proof.
  intros Hh Hhall Hcomment Hw Hwall Hn Hnall Hlen Hdig Hty Hfresh.
  pose proof (int_of_digits num Hn Hnall Hlen) as Hint.
  split; [exact Hint|].
  rewrite parse_lines_cons, strip_entry_line by assumption.
  assert (Hign : ignored (host ++ ws ++ "slots=" ++ num ++ rstrip rest) = false).
  { destruct host as [|c host]; [contradiction|]. unfold ignored. simpl in *.
    rewrite andb_true_r in *. now rewrite Hcomment. }
  rewrite Hign, pattern_search_prefix; try assumption.
  - rewrite Hint. simpl. rewrite Hfresh. now rewrite dict_set_fresh.
  - now apply starts_with_rstrip.
  - now apply type_field_follows_rstrip.
Qed.

Lemma trailing_text_ignored_witness :
  parse_lines ["worker0 slots=8 extra junk"] [] = Ok [("worker0", ResourceInfo 8 None)].
Proof.
  assert (H : int (VStr "8") = Ok (decimal 0 "8") /\
              parse_lines ["worker0 slots=8 extra junk"] [] =
              parse_lines [] ([] ++ [("worker0", ResourceInfo (decimal 0 "8") None)])%list).
  { apply (trailing_text_ignored "worker0" " " "8" " extra junk" [] []);
      reflexivity || discriminate. }
  destruct H as (_ & Hparse). exact Hparse.
Defined.

(** Past the limit of [int] the digits are refused, and the parse ends
    with the error of [int]. *)
Lemma slots_beyond_limit (host ws num rest : string) (lines : list string)
      (resources : ResourceTable) :
  host <> EmptyString -> str_all nonspace host = true -> startswith "#" host = false ->
  ws <> EmptyString -> str_all isspace ws = true ->
  str_all isdigit num = true ->
  int_max_str_digits < Z.of_nat (String.length num) ->
  starts_with isdigit rest = false ->
  type_field_follows rest = false ->
  parse_lines ((host ++ ws ++ "slots=" ++ num ++ rest) :: lines) resources =
  Raise (err_int_limit (Z.of_nat (String.length num))).
Proof.
  intros Hh Hhall Hcomment Hw Hwall Hnall Hlen Hdig Hty.
  assert (Hn : num <> EmptyString).
  { intros ->. cbn in Hlen. unfold int_max_str_digits in Hlen. lia. }
  rewrite parse_lines_cons, strip_entry_line by assumption.
  assert (Hign : ignored (host ++ ws ++ "slots=" ++ num ++ rstrip rest) = false).
  { destruct host as [|c host]; [contradiction|]. unfold ignored. simpl in *.
    rewrite andb_true_r in *. now rewrite Hcomment. }
  rewrite Hign, pattern_search_prefix; try assumption.
  - now rewrite (int_of_digits_limit num Hnall Hlen).
  - now apply starts_with_rstrip.
  - now apply type_field_follows_rstrip.
Qed.

(** C9, as stated, fails: the hostfile [worker0 slots=0] is accepted and
    its entry has no slot. *)
Lemma zero_slots_accepted :
  exists table host info,
    parse_hostfile {[ "hostfile" := File "worker0 slots=0" 420 ]} (Some "hostfile")
    = Ok (Some table) /\
    (host, info) ∈ table /\ ~ 0 < slots info.
Proof.
  exists [("worker0", ResourceInfo 0 None)], "worker0", (ResourceInfo 0 None).
  split; [vm_compute; reflexivity|]. split; [apply list_elem_of_here|simpl; lia].
Qed.

(** C9, amended.  Every entry of a table the parser returns comes from
    a line of the file that is neither a comment nor blank and reads,
    once stripped: the host of the entry, white space, [slots=], a run
    of digits, and then something that does not go on with a digit.
    The slots of the entry are the number these digits write in base
    10: they are not negative, and can be 0. *)
Theorem parsed_slots_from_digits (fs : filestore) (hostfile_path : option string)
        (table : ResourceTable) (host : string) (info : resource_info) :
  parse_hostfile fs hostfile_path = Ok (Some table) ->
  (host, info) ∈ table ->
  exists path fd line num rest,
    hostfile_path = Some path /\ fs !! path = Some fd /\
    line ∈ readlines fd /\ ignored (strip line) = false /\
    entry_line (strip line) host num rest /\
    Z.of_nat (String.length num) <= int_max_str_digits /\
    slots info = decimal 0 num /\ 0 <= slots info.
Proof.
  unfold parse_hostfile. destruct hostfile_path as [path|]; [|discriminate].
  destruct (fs !! path) as [fd|] eqn:Hfd; [|discriminate].
  destruct (parse_lines (readlines fd) []) as [t|] eqn:Hp; simpl; [|discriminate].
  destruct (length t =? 0)%nat; [discriminate|]. intros [= <-] Hin.
  destruct (parse_lines_entries _ _ _ Hp host info Hin)
    as [Hnil|(line & num & ty & Hline & Hentry & Hint)]; [now apply elem_of_nil in Hnil|].
  unfold entry_of in Hentry.
  destruct (ignored (strip line)) eqn:Hign; [discriminate|].
  destruct (pattern_search_shape _ _ _ _ Hentry) as (rest & Hshape).
  pose proof Hshape as (ws & _ & _ & _ & _ & _ & Hn & Hnall & _).
  destruct (int_digits_value num (slots info) Hn Hnall Hint) as (Hval & Hpos & Hlen).
  exists path, fd, line, num, rest. repeat split; try assumption; reflexivity.
Qed.

Lemma parsed_slots_from_digits_witness :
  exists path fd line num rest,
    Some "hostfile" = Some path /\
    ({[ "hostfile" := File "worker0 slots=0" 420 ]} : filestore) !! path = Some fd /\
    line ∈ readlines fd /\ ignored (strip line) = false /\
    entry_line (strip line) "worker0" num rest /\
    Z.of_nat (String.length num) <= int_max_str_digits /\
    slots (ResourceInfo 0 None) = decimal 0 num /\ 0 <= slots (ResourceInfo 0 None).
Proof.
  apply (parsed_slots_from_digits {[ "hostfile" := File "worker0 slots=0" 420 ]}
           (Some "hostfile") [("worker0", ResourceInfo 0 None)] "worker0").
  - vm_compute. reflexivity.
  - apply list_elem_of_here.
Defined.

(** C4. Without a path, or with a path that is not a regular file,
    [parse_hostfile] returns [None].  With a file, it raises as soon as
    one line is neither a comment, nor blank, nor an entry; it raises
    when two entries name the same host; and it raises when no line is
    an entry.  In these three cases no table is returned. *)
Theorem parse_hostfile_all_or_nothing (fs : filestore) (path : string) (fd : file) :
  parse_hostfile fs None = Ok None /\
  (fs !! path = None -> parse_hostfile fs (Some path) = Ok None) /\
  (fs !! path = Some fd ->
   ((exists line, line ∈ readlines fd /\ ignored (strip line) = false /\
                  pattern_search (strip line) = None) ->
    exists e, parse_hostfile fs (Some path) = Raise e) /\
   ((exists (i j : nat) l1 l2 g1 g2,
        (i < j)%nat /\ readlines fd !! i = Some l1 /\ readlines fd !! j = Some l2 /\
        entry_of l1 = Some g1 /\ entry_of l2 = Some g2 /\ host_of g1 = host_of g2) ->
    exists e, parse_hostfile fs (Some path) = Raise e) /\
   ((forall line, line ∈ readlines fd -> ignored (strip line) = true) ->
    parse_hostfile fs (Some path) = Raise err_empty)).
Proof.
  split; [reflexivity|]. split; [intros H; simpl; now rewrite H|].
  intros Hfd. unfold parse_hostfile. rewrite Hfd. repeat split.
  - intros (line & Hin & Hign & Hnone).
    destruct (parse_lines_invalid (readlines fd) [] line Hin Hign Hnone) as [e ->].
    now exists e.
  - intros (i & j & l1 & l2 & g1 & g2 & Hij & Hi & Hj & H1 & H2 & Hhost).
    rewrite <- (take_drop_middle _ _ _ Hi).
    assert (Hin : l2 ∈ drop (S i) (readlines fd)).
    { apply (list_elem_of_lookup_2 _ (j - S i)). rewrite lookup_drop.
      now replace (S i + (j - S i))%nat with j by lia. }
    destruct (parse_lines_twice (take i (readlines fd)) _ [] l1 l2 g1 g2 Hin H1 H2 Hhost)
      as [e ->].
    now exists e.
  - intros Hall. now rewrite parse_lines_all_ignored.
Qed.

Lemma parse_hostfile_all_or_nothing_witness :
  exists e, parse_hostfile {[ "hostfile" := File "worker0 8" 420 ]}
                           (Some "hostfile") = Raise e.
Proof.
  destruct (parse_hostfile_all_or_nothing
              {[ "hostfile" := File "worker0 8" 420 ]} "hostfile"
              (File "worker0 8" 420)) as (_ & _ & H).
  destruct (H eq_refl) as (Hinvalid & _ & _).
  apply Hinvalid. exists "worker0 8".
  split; [apply list_elem_of_here|]. split; reflexivity.
Defined.

Example parse_ex :
  parse_hostfile {[ "hosts" := File hostfile_ex 420 ]} (Some "hosts") =
  Ok (Some [("worker0", ResourceInfo 8 (Some "A100"));
            ("worker1", ResourceInfo 4 None);
            ("worker2", ResourceInfo 16 None)]).
Proof. vm_compute. reflexivity. Qed.

(* ===================================================================== *)
(** ** ScriptGenerator *)
(* ===================================================================== *)

(** *** Reading a line *)

Lemma lex_from_app (l : Sh.lexer) (a b : string) :
  Sh.lex_from l (a ++ b) =
  match Sh.lex_from l a with
  | Some l' => Sh.lex_from l' b
  | None => None
  end.
Proof.
  revert l. induction a as [|c a IH]; intros l; [reflexivity|].
  cbn [append Sh.lex_from]. destruct (Sh.step l c); [apply IH|reflexivity].
Qed.

Lemma plain_not_special (c : ascii) : Sh.plain c = true -> special c = false.
Proof.
  destruct c as [[|] [|] [|] [|] [|] [|] [|] [|]]; vm_compute; congruence.
Qed.

Ltac not_special H :=
  apply plain_not_special in H as H'; unfold special in H';
  repeat (apply orb_false_elim in H' as [H' ?]).

Lemma step_plain_char (l : Sh.lexer) (c : ascii) :
  Sh.plain c = true -> Sh.step_plain l c = Some (Sh.push c l).
Proof.
  intros H. not_special H. unfold Sh.step_plain, Sh.blank.
  repeat match goal with E : _ = false |- _ => rewrite E; clear E end.
  cbn [orb]. now rewrite H.
Qed.

Lemma lex_from_plain (p : string) (ts : list Sh.token) w :
  p <> EmptyString -> Shlex.all_safe p = true ->
  Sh.lex_from (Sh.Lexer ts w Sh.Plain) p = Some (Sh.Lexer ts (grown p w) Sh.Plain).
Proof.
  revert w. induction p as [|c p IH]; intros w Hne; [contradiction|].
  cbn [Shlex.all_safe]. intros H. apply andb_prop in H as [Hc Hp].
  cbn [Sh.lex_from Sh.step Sh.at_]. rewrite step_plain_char by exact Hc.
  destruct p as [|d p].
  - destruct w as [[parts [text|]]|]; reflexivity.
  - unfold Sh.push. cbn [Sh.cur Sh.toks].
    destruct w as [[parts [text|]]|]; rewrite IH by (discriminate || exact Hp);
      cbn [grown]; rewrite ?str_app_chr; reflexivity.
Qed.

Lemma lex_from_plain_subst (p : string) (ts : list Sh.token) cu argv w :
  p <> EmptyString -> Shlex.all_safe p = true ->
  Sh.lex_from (Sh.Lexer ts cu (Sh.Subst argv w)) p =
  Some (Sh.Lexer ts cu (Sh.Subst argv (grown_arg p w))).
Proof.
  revert w. induction p as [|c p IH]; intros w Hne; [contradiction|].
  cbn [Shlex.all_safe]. intros H. apply andb_prop in H as [Hc Hp].
  cbn [Sh.lex_from Sh.step Sh.at_ Sh.toks Sh.cur]. unfold Sh.blank.
  pose proof Hc as Hplain. not_special Hc.
  repeat match goal with E : _ = false |- _ => rewrite E; clear E end. cbn [orb].
  change (Shlex.safe c) with (Sh.plain c) in Hplain. rewrite Hplain.
  destruct p as [|d p].
  - destruct w; reflexivity.
  - rewrite IH by (discriminate || exact Hp).
    destruct w; cbn [grown_arg]; rewrite ?str_app_chr; reflexivity.
Qed.

Lemma safe_contains (c : ascii) (p : string) :
  special c = true -> Shlex.all_safe p = true -> contains c p = false.
Proof.
  intros Hc. induction p as [|d p IH]; [reflexivity|].
  cbn [Shlex.all_safe contains]. intros H. apply andb_prop in H as [Hd Hp].
  rewrite (IH Hp), orb_false_r. destruct (Ascii.eqb_spec d c) as [->|]; [|reflexivity].
  apply plain_not_special in Hd. congruence.
Qed.

Lemma literal_inv (p : string) :
  Sh.literal p = true ->
  p <> EmptyString /\ Shlex.all_safe p = true /\ startswith "-" p = false.
Proof.
  unfold Sh.literal. intros H. apply andb_prop in H as [H Hdash].
  apply andb_prop in H as [Hne Hsafe]. apply negb_true_iff in Hdash, Hne.
  repeat split; [|exact Hsafe|exact Hdash]. intros ->. discriminate.
Qed.

(** *** Reading the stop script *)

Lemma unlines_split (s : string) : Sh.unlines (split LF s) = s.
Proof.
  induction s as [|c s IH]; [reflexivity|]. cbn [split].
  destruct (Ascii.eqb_spec c LF) as [->|Hc].
  - cbn [Sh.unlines]. destruct (split LF s) eqn:E; [now destruct s|].
    rewrite IH. reflexivity.
  - destruct (split LF s) as [|hd tl] eqn:E; [now destruct s|].
    cbn [Sh.unlines] in *. destruct tl; rewrite <- IH; reflexivity.
Qed.

Lemma lex_test_line (p : string) :
  Sh.literal p = true ->
  Sh.lex ("if [ -f " ++ p ++ " ]; then") =
  Some [Sh.TWord [Sh.Lit "if"]; Sh.TWord [Sh.Lit "["]; Sh.TWord [Sh.Lit "-f"];
        Sh.TWord [Sh.Lit p]; Sh.TWord [Sh.Lit "]"]; Sh.TSemi; Sh.TWord [Sh.Lit "then"]].
Proof.
  intros H. apply literal_inv in H as (Hne & Hsafe & _). unfold Sh.lex.
  rewrite lex_from_app.
  replace (Sh.lex_from (Sh.Lexer [] None Sh.Plain) "if [ -f ")
    with (Some (Sh.Lexer [Sh.TWord [Sh.Lit "if"]; Sh.TWord [Sh.Lit "["];
                          Sh.TWord [Sh.Lit "-f"]] None Sh.Plain))
    by (vm_compute; reflexivity).
  rewrite lex_from_app, lex_from_plain by assumption. reflexivity.
Qed.

Lemma lex_pid_line (p : string) :
  Sh.literal p = true ->
  Sh.lex ("    pid=$(cat " ++ p ++ ")") =
  Some [Sh.TWord [Sh.Lit "pid="; Sh.Cmd ["cat"; p]]].
Proof.
  intros H. apply literal_inv in H as (Hne & Hsafe & _). unfold Sh.lex.
  rewrite lex_from_app.
  replace (Sh.lex_from (Sh.Lexer [] None Sh.Plain) "    pid=$(cat ")
    with (Some (Sh.Lexer [] (Some ([], Some "pid=")) (Sh.Subst ["cat"] None)))
    by (vm_compute; reflexivity).
  rewrite lex_from_app, lex_from_plain_subst by assumption. reflexivity.
Qed.

(** The text [_generate_stop_script] writes, line by line. *)
Lemma stop_script_lines (config : Config) (host : string) (node_rank : value) :
  let p := pid_file_of config host node_rank in
  stop_script_text config host node_rank =
  "#!/bin/bash" ++ String LF (EmptyString ++ String LF (
  ("if [ -f " ++ p ++ " ]; then") ++ String LF (
  ("    pid=$(cat " ++ p ++ ")") ++ String LF (
  "    pkill -P $pid" ++ String LF (
  "else" ++ String LF (
  "    pkill -f 'torchrun'" ++ String LF (
  "fi" ++ String LF (format (hook "after_stop" config) ++ nl)))))))).
Proof.
  cbv zeta. unfold stop_script_text, nl, chr.
  repeat (rewrite ?str_app_assoc; cbn [append]). reflexivity.
Qed.

(** With a pid file whose path the shell takes as it is written, the
    first command of the stop script is the [if] around the test of the
    pid file, and the text after it is the after-stop hook. *)
Lemma read_stop_script (config : Config) (host : string) (node_rank : value) :
  let p := pid_file_of config host node_rank in
  Sh.literal p = true ->
  Sh.read (stop_script_text config host node_rank) =
  Some (stop_command p, format (hook "after_stop" config) ++ nl).
Proof.
  cbv zeta. rewrite stop_script_lines. cbv zeta.
  generalize (pid_file_of config host node_rank) (format (hook "after_stop" config)).
  intros p h Hlit. pose proof (literal_inv p Hlit) as (Hne & Hsafe & _).
  assert (HLF : contains LF p = false) by (apply safe_contains; [reflexivity|exact Hsafe]).
  unfold Sh.read.
  rewrite (split_at_first LF "#!/bin/bash") by reflexivity.
  rewrite (split_at_first LF EmptyString) by reflexivity.
  rewrite (split_at_first LF ("if [ -f " ++ p ++ " ]; then"))
    by (rewrite !contains_app, HLF; reflexivity).
  rewrite (split_at_first LF ("    pid=$(cat " ++ p ++ ")"))
    by (rewrite !contains_app, HLF; reflexivity).
  rewrite (split_at_first LF "    pkill -P $pid") by reflexivity.
  rewrite (split_at_first LF "else") by reflexivity.
  rewrite (split_at_first LF "    pkill -f 'torchrun'") by reflexivity.
  rewrite (split_at_first LF "fi") by reflexivity.
  cbn [Sh.read_lines].
  replace (Sh.read_line Sh.Top "#!/bin/bash") with (Some Sh.Top) by (vm_compute; reflexivity).
  replace (Sh.read_line Sh.Top EmptyString) with (Some Sh.Top) by (vm_compute; reflexivity).
  unfold Sh.read_line at 1. rewrite (lex_test_line p Hlit).
  cbn [Sh.commands Sh.items_of Sh.items Sh.keyword_of Sh.unread Sh.feed_all Sh.feed
       app String.eqb Ascii.eqb Bool.eqb existsb orb].
  unfold Sh.read_line at 1. rewrite (lex_pid_line p Hlit).
  cbn [Sh.commands Sh.items_of Sh.items Sh.keyword_of Sh.unread Sh.feed_all Sh.feed
       app String.eqb Ascii.eqb Bool.eqb existsb orb].
  unfold Sh.read_line at 1.
  replace (Sh.lex "    pkill -P $pid")
    with (Some [Sh.TWord [Sh.Lit "pkill"]; Sh.TWord [Sh.Lit "-P"]; Sh.TWord [Sh.Var "pid"]])
    by (vm_compute; reflexivity).
  cbn [Sh.commands Sh.items_of Sh.items Sh.keyword_of Sh.unread Sh.feed_all Sh.feed
       app String.eqb Ascii.eqb Bool.eqb existsb orb].
  unfold Sh.read_line at 1.
  replace (Sh.lex "else") with (Some [Sh.TWord [Sh.Lit "else"]]) by (vm_compute; reflexivity).
  cbn [Sh.commands Sh.items_of Sh.items Sh.keyword_of Sh.unread Sh.feed_all Sh.feed
       app String.eqb Ascii.eqb Bool.eqb existsb orb].
  unfold Sh.read_line at 1.
  replace (Sh.lex "    pkill -f 'torchrun'")
    with (Some [Sh.TWord [Sh.Lit "pkill"]; Sh.TWord [Sh.Lit "-f"];
                Sh.TWord [Sh.Quoted "torchrun"]])
    by (vm_compute; reflexivity).
  cbn [Sh.commands Sh.items_of Sh.items Sh.keyword_of Sh.unread Sh.feed_all Sh.feed
       app String.eqb Ascii.eqb Bool.eqb existsb orb].
  unfold Sh.read_line at 1.
  replace (Sh.lex "fi") with (Some [Sh.TWord [Sh.Lit "fi"]]) by (vm_compute; reflexivity).
  cbn [Sh.commands Sh.items_of Sh.items Sh.keyword_of Sh.unread Sh.feed_all Sh.feed
       app String.eqb Ascii.eqb Bool.eqb existsb orb].
  rewrite unlines_split. reflexivity.
Qed.

(** *** Running the stop script *)

Lemma digits_without (c : ascii) (s : string) :
  isdigit c = false -> str_all isdigit s = true -> contains c s = false.
Proof.
  intros Hc. induction s as [|d s IH]; [reflexivity|].
  cbn [str_all contains]. intros H. apply andb_prop in H as [Hd Hs].
  rewrite (IH Hs), orb_false_r. destruct (Ascii.eqb_spec d c) as [->|]; [congruence|reflexivity].
Qed.

Lemma rstrip_newlines_pid (pid : string) :
  pid <> EmptyString -> str_all isdigit pid = true ->
  Sh.rstrip_newlines (pid ++ nl) = pid.
Proof.
  induction pid as [|c pid IH]; intros Hne; [contradiction|].
  cbn [str_all]. intros H. apply andb_prop in H as [Hc Hs].
  change (String c pid ++ nl) with (String c (pid ++ nl)). cbn [Sh.rstrip_newlines].
  destruct pid as [|d pid].
  - cbn. destruct (Ascii.eqb_spec c LF) as [->|]; [discriminate|reflexivity].
  - rewrite IH by (discriminate || exact Hs). reflexivity.
Qed.

Lemma split_fields_pid (pid : string) (w : option string) :
  pid <> EmptyString -> str_all isdigit pid = true ->
  Sh.split_fields w pid = [match w with Some text => text ++ pid | None => pid end].
Proof.
  revert w. induction pid as [|c pid IH]; intros w Hne; [contradiction|].
  cbn [str_all]. intros H. apply andb_prop in H as [Hc Hs].
  cbn [Sh.split_fields].
  assert (Hifs : Sh.ifs c = false).
  { revert Hc. clear. destruct c as [[|] [|] [|] [|] [|] [|] [|] [|]]; vm_compute; congruence. }
  rewrite Hifs. destruct pid as [|d pid].
  - destruct w; reflexivity.
  - rewrite IH by (discriminate || exact Hs). destruct w; rewrite ?str_app_chr; reflexivity.
Qed.

Lemma exec_stop_command_missing (p : string) (fs : Sh.files) (vs : Sh.vars) :
  fs p = None ->
  Sh.exec fs vs (stop_command p) = Some [Sh.Run ["pkill"; "-f"; "torchrun"]].
Proof.
  intros Hfs. unfold stop_command. cbn. rewrite str_app_nil_r, Hfs. reflexivity.
Qed.

Lemma dict_get_set_same {V} (k : string) (v : V) (d : Dict.t V) :
  Dict.get k (Dict.set k v d) = Some v.
Proof.
  induction d as [|[k' v'] d IH]; cbn [Dict.set Dict.get].
  - now rewrite String.eqb_refl.
  - destruct (String.eqb_spec k' k) as [->|Hne]; cbn [Dict.get].
    + now rewrite String.eqb_refl.
    + destruct (String.eqb_spec k' k); [contradiction|exact IH].
Qed.

Lemma exec_pid_assignment (p pid : string) (fs : Sh.files) (vs : Sh.vars) :
  startswith "-" p = false -> pid <> EmptyString -> str_all isdigit pid = true ->
  fs p = Some (pid ++ nl) ->
  Sh.exec_simple fs vs [[Sh.Lit "pid="; Sh.Cmd ["cat"; p]]] =
  Some (Dict.set "pid" pid vs, [Sh.Run ["cat"; p]], None).
Proof.
  intros Hdash Hne Hpid Hfs. unfold Sh.exec_simple, Sh.assignment.
  replace (Sh.cut_assignment EmptyString "pid=") with (Some ("pid", EmptyString))
    by (vm_compute; reflexivity).
  cbn [Sh.text_of Sh.value_of Sh.output String.eqb Ascii.eqb Bool.eqb andb negb].
  assert (Hnul : contains (ascii_of_nat 0) (pid ++ nl) = false).
  { rewrite contains_app, (digits_without _ pid) by (reflexivity || exact Hpid).
    reflexivity. }
  rewrite Hdash, Hfs, Hnul. cbn [negb].
  rewrite rstrip_newlines_pid by assumption.
  cbn [app append Sh.has_substitution existsb orb]. now rewrite str_app_nil_r.
Qed.

Lemma exec_pkill_children (pid : string) (fs : Sh.files) (vs : Sh.vars) :
  pid <> EmptyString -> str_all isdigit pid = true ->
  Sh.exec_simple fs (Dict.set "pid" pid vs)
    [[Sh.Lit "pkill"]; [Sh.Lit "-P"]; [Sh.Var "pid"]] =
  Some (Dict.set "pid" pid vs, [Sh.Run ["pkill"; "-P"; pid]], None).
Proof.
  intros Hne Hpid. unfold Sh.exec_simple, Sh.assignment.
  replace (Sh.cut_assignment EmptyString "pkill") with (@None (string * string))
    by (vm_compute; reflexivity).
  cbn [Sh.all_fields Sh.fields forallb Sh.is_text andb Sh.text_of Sh.value_of app append].
  unfold Dict.get_default. rewrite dict_get_set_same, str_app_nil_r.
  unfold Sh.globbing. rewrite !(digits_without _ pid) by (reflexivity || exact Hpid).
  cbn [orb]. rewrite split_fields_pid by assumption.
  cbn [app append String.eqb Ascii.eqb Bool.eqb]. reflexivity.
Qed.

Lemma exec_stop_command_recorded (p pid : string) (fs : Sh.files) (vs : Sh.vars) :
  Sh.literal p = true -> pid <> EmptyString -> str_all isdigit pid = true ->
  fs p = Some (pid ++ nl) ->
  Sh.exec fs vs (stop_command p) =
  Some [Sh.Run ["cat"; p]; Sh.Run ["pkill"; "-P"; pid]].
Proof.
  intros Hlit Hne Hpid Hfs. apply literal_inv in Hlit as (_ & _ & Hdash).
  unfold stop_command, Sh.exec.
  replace (Sh.exec_list fs vs None [[[Sh.Lit "["]; [Sh.Lit "-f"]; [Sh.Lit p]; [Sh.Lit "]"]]])
    with (Some (vs, @nil Sh.action, Some true))
    by (cbn; now rewrite str_app_nil_r, Hfs).
  cbn [Sh.exec_list]. rewrite (exec_pid_assignment p pid) by assumption.
  rewrite exec_pkill_children by assumption. reflexivity.
Qed.

(** C6, as stated, fails: the path of the pid file is written into the
    script as it is, so with a blank in the pid directory the test gets
    three operands and fails.  The pid file is there and holds a pid,
    and the script kills by name. *)
Lemma stop_script_blank_in_path :
  let path := stop_script_of config_blank_ex "worker0" (VInt 0) in
  let pid_file := pid_file_of config_blank_ex "worker0" (VInt 0) in
  exists text,
    fst (_generate_stop_script config_blank_ex "worker0" (VInt 0) world_ex) = Ok path /\
    files (snd (_generate_stop_script config_blank_ex "worker0" (VInt 0) world_ex)) !! path
    = Some (File text 493) /\
    pid_file = "/exp/my logs/pids/host_0_worker0.pid" /\
    pid_recorded pid_file "4242" pid_file = Some ("4242" ++ nl) /\
    Sh.run (pid_recorded pid_file "4242") [] text =
    Some ([Sh.Run ["pkill"; "-f"; "torchrun"]], "echo stopped" ++ nl).
Proof.
  cbv zeta. exists (stop_script_text config_blank_ex "worker0" (VInt 0)).
  repeat split; vm_compute; reflexivity.
Qed.

(** C6, amended.  [_generate_stop_script] leaves the stop script at its
    path with mode [0o755].  When the path of the pid file is made of
    characters the shell takes as they are, the first command of the
    script is the [if] around the test of the pid file and the rest of
    the text is the after-stop hook.  On a host where the pid file
    holds a pid, the script reads the file and runs [pkill -P] on the
    pid; on a host without the pid file it runs [pkill -f torchrun]; in
    both cases the shell goes on with the hook. *)
Theorem stop_script_branches (config : Config) (host : string) (node_rank : value)
        (w : world) (fs : Sh.files) (vs : Sh.vars) :
  let path := stop_script_of config host node_rank in
  let pid_file := pid_file_of config host node_rank in
  let after_stop := format (hook "after_stop" config) in
  Sh.literal pid_file = true ->
  exists text,
    _generate_stop_script config host node_rank w =
      (Ok path, World (<[path := File text 493]> (files w)) (trace w) (ticks w)) /\
    Sh.read text = Some (stop_command pid_file, after_stop ++ nl) /\
    (forall pid, pid <> EmptyString -> str_all isdigit pid = true ->
       fs pid_file = Some (pid ++ nl) ->
       Sh.run fs vs text =
       Some ([Sh.Run ["cat"; pid_file]; Sh.Run ["pkill"; "-P"; pid]], after_stop ++ nl)) /\
    (fs pid_file = None ->
       Sh.run fs vs text =
       Some ([Sh.Run ["pkill"; "-f"; "torchrun"]], after_stop ++ nl)).
Proof.
  cbv zeta. intros Hlit. exists (stop_script_text config host node_rank).
  pose proof (read_stop_script config host node_rank Hlit) as Hread.
  split; [|split; [exact Hread|split]].
  - unfold _generate_stop_script, bind, write_text, chmod, ret. cbn [files trace ticks].
    rewrite alter_insert_eq. reflexivity.
  - intros pid Hne Hpid Hfs. unfold Sh.run. rewrite Hread.
    now rewrite (exec_stop_command_recorded _ pid).
  - intros Hfs. unfold Sh.run. rewrite Hread. now rewrite exec_stop_command_missing.
Qed.

Lemma stop_script_branches_witness :
  exists text,
    _generate_stop_script config_ex "worker1" (VInt 1) world_ex =
      (Ok (stop_script_of config_ex "worker1" (VInt 1)),
       World (<[stop_script_of config_ex "worker1" (VInt 1) := File text 493]>
                (files world_ex)) (trace world_ex) (ticks world_ex)) /\
    Sh.run (pid_recorded (pid_file_of config_ex "worker1" (VInt 1)) "4242") [] text =
    Some ([Sh.Run ["cat"; pid_file_of config_ex "worker1" (VInt 1)];
           Sh.Run ["pkill"; "-P"; "4242"]],
          format (hook "after_stop" config_ex) ++ nl).
Proof.
  assert (Hlit : Sh.literal (pid_file_of config_ex "worker1" (VInt 1)) = true)
    by (vm_compute; reflexivity).
  destruct (stop_script_branches config_ex "worker1" (VInt 1) world_ex
              (pid_recorded (pid_file_of config_ex "worker1" (VInt 1)) "4242") [] Hlit)
    as (text & Hgen & _ & Hrecorded & _).
  exists text. split; [exact Hgen|].
  apply Hrecorded; [discriminate|reflexivity|].
  unfold pid_recorded. now rewrite String.eqb_refl.
Defined.

Example stop_script_ex :
  stop_script_text config_ex "worker1" (VInt 1) =
  "#!/bin/bash" ++ nl ++ nl ++
  "if [ -f /exp/logs/pids/host_1_worker1.pid ]; then" ++ nl ++
  "    pid=$(cat /exp/logs/pids/host_1_worker1.pid)" ++ nl ++
  "    pkill -P $pid" ++ nl ++
  "else" ++ nl ++
  "    pkill -f 'torchrun'" ++ nl ++
  "fi" ++ nl ++
  "echo stopped" ++ nl.
Proof. vm_compute. reflexivity. Qed.

(** The stop script of the example on a host with the pid file, and on
    a host without. *)
Example stop_script_run_ex :
  let text := stop_script_text config_ex "worker1" (VInt 1) in
  Sh.run (pid_recorded "/exp/logs/pids/host_1_worker1.pid" "4242") [] text =
  Some ([Sh.Run ["cat"; "/exp/logs/pids/host_1_worker1.pid"];
         Sh.Run ["pkill"; "-P"; "4242"]], "echo stopped" ++ nl) /\
  Sh.run (fun _ => None) [] text =
  Some ([Sh.Run ["pkill"; "-f"; "torchrun"]], "echo stopped" ++ nl).
Proof. vm_compute. split; reflexivity. Qed.

(* ===================================================================== *)
(** ** Dispatcher *)
(* ===================================================================== *)

(** C7. [run_local_command] asks [subprocess.run] to check the exit
    status, so a command that exits with a status other than 0 ends the
    call with [CalledProcessError]: nothing is printed and [sys.exit] is
    not reached. *)
Theorem local_failure_raises (env : Env) (cmd : string) (w : world) :
  let result := shell env (ticks w) cmd in
  run_local_command env cmd false w =
  (if returncode result =? 0 then Ok tt
   else Raise (CalledProcessError (returncode result) cmd),
   World (files w) (trace w ++ [Spawn cmd])%list (S (ticks w))).
Proof.
  cbv zeta. unfold run_local_command, subprocess_run, bind, tick, record, raise, ret.
  cbn [files trace ticks andb].
  destruct (returncode (shell env (ticks w) cmd) =? 0) eqn:Hrc; cbn [negb].
  - rewrite Hrc. reflexivity.
  - reflexivity.
Qed.

Example local_failure_ex :
  run_local_command
    {| shell := fun _ _ => Completed 3 "out" "err"; clock := fun _ => "T";
       port_at := fun _ => 2980; abspath := fun p => p; root_dir := "/repo" |}
    "bash /exp/logs/scripts/host_0_localhost_run.sh" false (World ∅ [] 0) =
  (Raise (CalledProcessError 3 "bash /exp/logs/scripts/host_0_localhost_run.sh"),
   World ∅ [Spawn "bash /exp/logs/scripts/host_0_localhost_run.sh"] 1).
Proof. reflexivity. Qed.

(* ===================================================================== *)
(** ** LaunchPlanBuilder *)
(* ===================================================================== *)

Lemma dict_get_set {V} (k k' : string) (v : V) (d : Dict.t V) :
  Dict.get k (Dict.set k' v d) = if String.eqb k' k then Some v else Dict.get k d.
Proof.
  induction d as [|[k0 v0] d IH]; simpl.
  - reflexivity.
  - destruct (String.eqb_spec k0 k') as [->|Hne]; simpl.
    + destruct (String.eqb k' k); reflexivity.
    + rewrite IH. destruct (String.eqb_spec k0 k) as [->|]; [|reflexivity].
      destruct (String.eqb_spec k' k); [congruence|reflexivity].
Qed.

Lemma dict_get_split {V} (k : string) (v : V) (d : Dict.t V) :
  Dict.get k d = Some v -> exists d1 d2, d = (d1 ++ (k, v) :: d2)%list.
Proof.
  induction d as [|[k0 v0] d IH]; simpl; [discriminate|].
  destruct (String.eqb_spec k0 k) as [->|].
  - intros [= ->]. now exists [], d.
  - intros H. destruct (IH H) as (d1 & d2 & ->). now exists ((k0, v0) :: d1), d2.
Qed.

Lemma eqv_str_refl (s : string) : eqv (VStr s) (VStr s) = true.
Proof. simpl. apply String.eqb_refl. Qed.

Lemma carries_app (key text : string) (pre post : list value) :
  carries key text (pre ++ VStr ("--" ++ key) :: VStr text :: post) = true.
Proof.
  induction pre as [|x pre IH].
  - cbn [app carries]. now rewrite !eqv_str_refl.
  - cbn [app]. destruct (pre ++ _)%list as [|b r] eqn:E.
    + now destruct pre.
    + cbn [carries]. cbn [carries] in IH. rewrite IH. apply orb_true_r.
Qed.

(** An entry of [runner_args] that is not a boolean is emitted as its
    flag followed by its text. *)
Lemma carries_entry (key : string) (v : value) (pre : list value) (d : Dict.t value) :
  Dict.get key d = Some v ->
  (forall b, v <> VBool b) ->
  carries key (format v) (pre ++ flat_map emit d) = true.
Proof.
  intros Hget Hnb. apply dict_get_split in Hget as (d1 & d2 & ->).
  rewrite flat_map_app. cbn [flat_map].
  replace (emit (key, v)) with [VStr ("--" ++ key); VStr (format v)]
    by (destruct v; [now destruct (Hnb b)|reflexivity|reflexivity]).
  rewrite app_assoc. cbn [app]. apply carries_app.
Qed.

(** C5, as stated, fails: with [rdzv_endpoint] set in the configuration,
    a per-node command carries that endpoint and none built from
    [localhost]. *)
Lemma per_node_endpoint_from_config :
  exists tokens,
    per_node_task config_endpoint_ex = true /\
    _get_runner_cmd id "T" "worker1" (VStr "worker0") (VInt 2980) (VInt 2) (VInt 1)
                    (VInt 4) config_endpoint_ex = Ok tokens /\
    carries "rdzv_endpoint" "10.0.0.1:29500" tokens = true /\
    carries "rdzv_endpoint" "localhost:2980" tokens = false.
Proof. eexists. repeat split; vm_compute; reflexivity. Qed.

(** C5, amended.  For a per-node job, whatever host, master address and
    port, node count and rank are passed, the command carries
    [--nnodes 1] and [--node_rank 0]; it carries the endpoint
    [localhost:<master_port>] when the configuration sets no
    [rdzv_endpoint], and the configured endpoint otherwise.  The call
    fails only on a log directory or, for another backend than
    [torchrun], a rendezvous id that is not a string. *)
Theorem per_node_task_forces_single_node (abspath : string -> string) (now host : string)
        (master_addr master_port nnodes node_rank nproc_per_node : value)
        (config : Config) :
  per_node_task config = true ->
  match _get_runner_cmd abspath now host master_addr master_port nnodes node_rank
                        nproc_per_node config with
  | Ok tokens =>
      carries "nnodes" "1" tokens = true /\
      carries "node_rank" "0" tokens = true /\
      match Dict.get "rdzv_endpoint" (runner config) with
      | None => carries "rdzv_endpoint" ("localhost:" ++ format master_port) tokens = true
      | Some (VBool _) => True
      | Some endpoint => carries "rdzv_endpoint" (format endpoint) tokens = true
      end
  | Raise e =>
      e = TypeError /\
      (Path.fspath (log_dir_entry config) = Raise TypeError \/
       eqv (backend_entry config) (VStr "torchrun") = false /\
       Path.fspath (rdzv_id_entry config) = Raise TypeError)
  end.
Proof.
  unfold per_node_task. intros Hper. unfold _get_runner_cmd. rewrite Hper.
  fold (log_dir_entry config) (rdzv_id_entry config) (backend_entry config).
  destruct (log_dir_entry config) as [b|n|dir]; cbn [Path.fspath obind];
    try (split; [reflexivity|now left]).
  match goal with
  | |- match obind ?o _ with _ => _ end =>
      assert (Ho : (exists p, o = Ok p) \/
                   (o = Raise TypeError /\
                    eqv (backend_entry config) (VStr "torchrun") = false /\
                    Path.fspath (rdzv_id_entry config) = Raise TypeError));
      [|destruct Ho as [[p ->]|(-> & Hb & Hid)]]
  end.
  { destruct (eqv (backend_entry config) (VStr "torchrun")); [left; eauto|].
    destruct (rdzv_id_entry config); cbn; eauto. }
  2:{ cbn [obind]. split; [reflexivity|right; now split]. }
  cbn [obind].
  repeat split.
  - apply (carries_entry "nnodes" (VInt 1)); [|discriminate].
    rewrite !dict_get_set. reflexivity.
  - apply (carries_entry "node_rank" (VInt 0)); [|discriminate].
    rewrite !dict_get_set. reflexivity.
  - unfold Dict.get_default.
    destruct (Dict.get "rdzv_endpoint" (runner config)) as [[b|n|s]|]; [exact I| | |].
    + apply (carries_entry "rdzv_endpoint" (VInt n)); [|discriminate].
      rewrite !dict_get_set. reflexivity.
    + apply (carries_entry "rdzv_endpoint" (VStr s)); [|discriminate].
      rewrite !dict_get_set. reflexivity.
    + apply (carries_entry "rdzv_endpoint"
               (VStr ("localhost:" ++ format master_port))); [|discriminate].
      rewrite !dict_get_set. reflexivity.
Qed.

Lemma per_node_task_forces_single_node_witness :
  exists tokens,
    _get_runner_cmd id "T" "worker1" (VStr "worker0") (VInt 2980) (VInt 2) (VInt 1)
                    (VInt 4) config_ex = Ok tokens /\
    carries "nnodes" "1" tokens = true /\
    carries "node_rank" "0" tokens = true /\
    carries "rdzv_endpoint" "localhost:2980" tokens = true.
Proof.
  pose proof (per_node_task_forces_single_node id "T" "worker1" (VStr "worker0")
                (VInt 2980) (VInt 2) (VInt 1) (VInt 4) config_ex eq_refl) as H.
  destruct (_get_runner_cmd id "T" "worker1" (VStr "worker0") (VInt 2980) (VInt 2)
              (VInt 1) (VInt 4) config_ex) as [tokens|e] eqn:E.
  - exists tokens. split; [reflexivity|]. exact H.
  - exfalso. vm_compute in E. discriminate E.
Defined.

Example runner_cmd_ex :
  _get_runner_cmd id "T" "worker1" (VStr "worker0") (VInt 2980) (VInt 2) (VInt 1)
                  (VInt 4) config_ex =
  Ok (map VStr ["torchrun"; "--nnodes"; "1"; "--no_python"; "--rdzv_id"; "default";
        "--node_rank"; "0"; "--nproc_per_node"; "4"; "--rdzv_backend"; "c10d";
        "--rdzv_endpoint"; "localhost:2980";
        "--log_dir"; "/exp/logs/details/host_0_worker1/T";
        "--redirects"; "3"; "--tee"; "3"]).
Proof. vm_compute. reflexivity. Qed.

(* ===================================================================== *)
(** ** Runner orchestration *)
(* ===================================================================== *)

Create HintDb quiet.

Lemma dispatched_app (t1 t2 : list event) :
  dispatched (t1 ++ t2) = (dispatched t1 ++ dispatched t2)%list.
Proof. apply flat_map_app. Qed.

Lemma quiet_ret {A} (a : A) : quiet (ret a).
Proof. now intros w. Qed.

Lemma quiet_raise {A} (e : exn) : quiet (@raise A e).
Proof. now intros w. Qed.

Lemma quiet_lift {A} (o : outcome A) : quiet (lift o).
Proof. now intros w. Qed.

Lemma quiet_tick : quiet tick.
Proof. now intros w. Qed.

Lemma quiet_bind {A B} (m : M A) (f : A -> M B) :
  quiet m -> (forall a, quiet (f a)) -> quiet (bind m f).
Proof.
  intros Hm Hf w. unfold bind. specialize (Hm w).
  destruct (m w) as [[a|e] w1]; simpl in *; [|exact Hm].
  now rewrite Hf.
Qed.

Lemma quiet_if {A} (b : bool) (m1 m2 : M A) :
  quiet m1 -> quiet m2 -> quiet (if b then m1 else m2).
Proof. now destruct b. Qed.

Lemma quiet_spawn (cmd : string) : quiet (record (Spawn cmd)).
Proof. intros w. simpl. rewrite dispatched_app. apply app_nil_r. Qed.

Lemma quiet_print (text : string) : quiet (print text).
Proof. intros w. simpl. rewrite dispatched_app. apply app_nil_r. Qed.

Lemma quiet_write_text (path text : string) : quiet (write_text path text).
Proof. now intros w. Qed.

Lemma quiet_chmod (path : string) (m : Z) : quiet (chmod path m).
Proof. now intros w. Qed.

#[local] Hint Resolve quiet_ret quiet_raise quiet_lift quiet_tick quiet_bind quiet_if
  quiet_spawn quiet_print quiet_write_text quiet_chmod : quiet.

Lemma quiet_subprocess_run env cmd check : quiet (subprocess_run env cmd check).
Proof. unfold subprocess_run. auto 10 with quiet. Qed.
#[local] Hint Resolve quiet_subprocess_run : quiet.

Lemma quiet_run_local_command env cmd dryrun : quiet (run_local_command env cmd dryrun).
Proof. unfold run_local_command. auto 10 with quiet. Qed.

Lemma quiet_run_ssh_command env host cmd port dryrun :
  quiet (run_ssh_command env host cmd port dryrun).
Proof. unfold run_ssh_command. auto 10 with quiet. Qed.

Lemma quiet_run_scp_command env host src dst port dryrun :
  quiet (run_scp_command env host src dst port dryrun).
Proof. unfold run_scp_command. auto 10 with quiet. Qed.

Lemma quiet_get_free_port env : quiet (get_free_port env).
Proof. unfold get_free_port. auto with quiet. Qed.

Lemma quiet_strftime_now env : quiet (strftime_now env).
Proof. unfold strftime_now. auto with quiet. Qed.

Lemma quiet_generate_run_script root config host node_rank cmd background with_test :
  quiet (_generate_run_script root config host node_rank cmd background with_test).
Proof. unfold _generate_run_script. auto with quiet. Qed.

#[local] Hint Resolve quiet_run_local_command quiet_run_ssh_command
  quiet_run_scp_command quiet_get_free_port quiet_strftime_now
  quiet_generate_run_script : quiet.

Lemma quiet_prepare env self : quiet (_prepare env self).
Proof. unfold _prepare. auto 10 with quiet. Qed.
#[local] Hint Resolve quiet_prepare : quiet.

(** [_run_each] records its call and then enters no other. *)
Lemma run_each_dispatched env self p host master_addr master_port nnodes node_rank
      nproc_per_node with_test dryrun w :
  dispatched (trace (snd (_run_each env self p host master_addr master_port nnodes
                                    node_rank nproc_per_node with_test dryrun w))) =
  (dispatched (trace w) ++ [(host, node_rank)])%list.
Proof.
  unfold _run_each.
  match goal with
  | |- context [bind (record ?e) ?f w] =>
      change (bind (record e) f w)
        with (f tt (World (files w) (trace w ++ [e])%list (ticks w)));
      assert (Hq : quiet (f tt)) by auto 20 with quiet
  end.
  rewrite Hq. cbn [trace]. rewrite dispatched_app. reflexivity.
Qed.

(** The body of the loop enters [_run_each] once, for its host and rank,
    unless the process count cannot be negotiated. *)
Lemma run_host_dispatched env self p num_visible_devices ip port nnodes with_test
      dryrun node_rank host info w :
  let rw := run_host env self p num_visible_devices ip port nnodes with_test dryrun
                     node_rank host info w in
  dispatched (trace (snd rw)) = (dispatched (trace w) ++ [(host, VInt node_rank)])%list \/
  (is_ok (fst rw) = false /\ dispatched (trace (snd rw)) = dispatched (trace w)).
Proof.
  cbv zeta. unfold run_host, bind, lift.
  destruct (_get_nproc_per_node _ _ _) as [nproc|e].
  - left. apply run_each_dispatched.
  - right. now split.
Qed.

Lemma take_ranked_cons {V} (k : nat) (start : Z) (host : string) (info : V)
      (rest : Dict.t V) :
  take (S k) (ranked start ((host, info) :: rest)) =
  (host, VInt start) :: take k (ranked (start + 1) rest).
Proof. reflexivity. Qed.

Lemma length_ranked {V} (start : Z) (items : Dict.t V) :
  length (ranked start items) = length items.
Proof.
  revert start. induction items as [|[h i] items IH]; intros start; simpl; [reflexivity|].
  now rewrite IH.
Qed.

(** The loop enters the body for the hosts in table order and stops at
    the first rank that reaches [nnodes]. *)
Lemma for_hosts_dispatches {V} (nnodes : Z) (body : Z -> string -> V -> M unit)
      (items : Dict.t V) :
  (forall node_rank host info w,
      dispatched (trace (snd (body node_rank host info w))) =
        (dispatched (trace w) ++ [(host, VInt node_rank)])%list \/
      (is_ok (fst (body node_rank host info w)) = false /\
       dispatched (trace (snd (body node_rank host info w))) = dispatched (trace w))) ->
  forall start,
    dispatches (ranked start items)
               (Nat.min (length items) (Z.to_nat (nnodes - start)))
               (for_hosts nnodes body start items).
Proof.
  intros Hbody. induction items as [|[host info] rest IH]; intros start w.
  - exists 0%nat. split; [simpl; now rewrite app_nil_r|]. cbn [length]. split; lia.
  - cbn [for_hosts]. destruct (Z.geb_spec start nnodes) as [Hge|Hlt].
    + exists 0%nat. split; [simpl; now rewrite app_nil_r|]. split; lia.
    + unfold bind. specialize (Hbody start host info w).
      destruct (body start host info w) as [[[]|e] w1]; cbn [fst snd] in *.
      * destruct Hbody as [Hd|[Hno _]]; [|discriminate].
        destruct (IH (start + 1) w1) as (k & Hk & Hle & Hfull).
        exists (S k). rewrite take_ranked_cons, Hk, Hd, <- app_assoc.
        cbn [length]. repeat split; [lia|].
        intros Hok. specialize (Hfull Hok). lia.
      * destruct Hbody as [Hd|[_ Hd]].
        -- exists 1%nat. rewrite Hd. cbn [length]. repeat split; [lia|discriminate].
        -- exists 0%nat. rewrite Hd, app_nil_r. repeat split; [lia|discriminate].
Qed.

Lemma dispatches_quiet_bind {A B} hosts bound (m : M A) (f : A -> M B) :
  quiet m -> (forall a, dispatches hosts bound (f a)) -> dispatches hosts bound (bind m f).
Proof.
  intros Hm Hf w. unfold bind. specialize (Hm w).
  destruct (m w) as [[a|e] w1]; cbn [snd] in Hm.
  - destruct (Hf a w1) as (k & Hk & Hle & Hfull). exists k. now rewrite Hk, Hm.
  - exists 0%nat. cbn [fst snd]. rewrite Hm. split; [simpl; now rewrite app_nil_r|].
    split; [lia|discriminate].
Qed.

Lemma dispatches_lift_bind {A B} hosts bound (o : outcome A) (f : A -> M B) :
  (forall a, o = Ok a -> dispatches hosts bound (f a)) ->
  dispatches hosts bound (bind (lift o) f).
Proof.
  intros Hf w. destruct o as [a|e].
  - apply (Hf a eq_refl).
  - exists 0%nat. split; [simpl; now rewrite app_nil_r|]. split; [lia|discriminate].
Qed.

Lemma get_nnodes_le (h n : Z) (a : option value) :
  _get_nnodes (Some h) a = Ok n -> n <= h.
Proof.
  unfold _get_nnodes. destruct a as [a|]; [|intros [= ->]; lia].
  destruct (drop_max_nnodes a) as [a'|]; [|discriminate]. cbn [obind].
  destruct (int a') as [m|]; [|discriminate]. cbn [obind]. intros [= <-]. lia.
Qed.

(** The number of hosts [run] enters [_run_each] for. *)
Lemma run_dispatches env self table with_test dryrun :
  resources self = Some table ->
  dispatches (ranked 0 table)
             (match negotiated (config self) table with
              | Ok nnodes => Z.to_nat nnodes
              | Raise _ => 0%nat
              end)
             (run env self with_test dryrun).
Proof.
  intros Hres. unfold run. rewrite Hres.
  apply dispatches_quiet_bind; [auto with quiet|intros p].
  apply dispatches_quiet_bind; [auto with quiet|intros num_visible_devices].
  unfold negotiated, Dict.keys. rewrite length_map.
  apply dispatches_lift_bind. intros nnodes Hnn. rewrite Hnn.
  apply dispatches_quiet_bind; [auto with quiet|intros ip].
  apply dispatches_quiet_bind; [auto with quiet|intros port].
  apply get_nnodes_le in Hnn.
  replace (Z.to_nat nnodes) with (Nat.min (length table) (Z.to_nat (nnodes - 0))) by lia.
  apply for_hosts_dispatches. intros node_rank host info w.
  apply run_host_dispatched.
Qed.

Create HintDb succeeds.

Lemma succeeds_ret {A} (a : A) : succeeds (ret a).
Proof. now intros w. Qed.

Lemma succeeds_bind {A B} (m : M A) (f : A -> M B) :
  succeeds m -> (forall a, succeeds (f a)) -> succeeds (bind m f).
Proof.
  intros Hm Hf w. unfold bind. specialize (Hm w).
  destruct (m w) as [[a|e] w1]; [apply Hf|discriminate].
Qed.

Lemma succeeds_lift_bind {A B} (o : outcome A) (f : A -> M B) :
  is_ok o = true -> (forall a, o = Ok a -> succeeds (f a)) -> succeeds (bind (lift o) f).
Proof. intros Ho Hf w. destruct o as [a|e]; [apply (Hf a eq_refl)|discriminate]. Qed.

Lemma succeeds_if {A} (b : bool) (m1 m2 : M A) :
  succeeds m1 -> succeeds m2 -> succeeds (if b then m1 else m2).
Proof. now destruct b. Qed.

Lemma succeeds_record (e : event) : succeeds (record e).
Proof. now intros w. Qed.

Lemma succeeds_tick : succeeds tick.
Proof. now intros w. Qed.

Lemma succeeds_write_text (path text : string) : succeeds (write_text path text).
Proof. now intros w. Qed.

Lemma succeeds_chmod (path : string) (m : Z) : succeeds (chmod path m).
Proof. now intros w. Qed.

#[local] Hint Resolve succeeds_ret succeeds_bind succeeds_if succeeds_record
  succeeds_tick succeeds_write_text succeeds_chmod : succeeds.

Section CommandsSucceed.

Variable env : Env.
Variable dryrun : bool.

(** Nothing is run, or every command exits with status 0. *)
Hypothesis commands_ok :
  dryrun = true \/ forall n cmd, returncode (shell env n cmd) = 0.

Lemma dry_or_not : dryrun = true \/ dryrun = false.
Proof. destruct dryrun; auto. Qed.

Lemma succeeds_subprocess_run cmd check :
  dryrun = false -> succeeds (subprocess_run env cmd check).
Proof.
  intros Hdry w. destruct commands_ok as [?|Hzero]; [congruence|].
  cbv beta iota zeta delta [subprocess_run bind tick record ticks files trace].
  rewrite Hzero. cbn. now rewrite andb_false_r.
Qed.

Lemma succeeds_run_local_command cmd : succeeds (run_local_command env cmd dryrun).
Proof.
  unfold run_local_command. destruct dry_or_not as [Hdry|Hdry]; rewrite Hdry;
    [apply succeeds_ret|].
  intros w. destruct commands_ok as [?|Hzero]; [congruence|].
  cbv beta iota zeta delta [subprocess_run bind tick record ticks files trace].
  rewrite Hzero. cbn. rewrite Hzero. reflexivity.
Qed.

Lemma succeeds_run_ssh_command host cmd port :
  succeeds (run_ssh_command env host cmd port dryrun).
Proof.
  unfold run_ssh_command. destruct dry_or_not as [Hdry|Hdry]; rewrite Hdry;
    [apply succeeds_ret|].
  apply succeeds_bind; [now apply succeeds_subprocess_run|intros; apply succeeds_ret].
Qed.

Lemma succeeds_run_scp_command host src dst port :
  succeeds (run_scp_command env host src dst port dryrun).
Proof.
  unfold run_scp_command. destruct dry_or_not as [Hdry|Hdry]; rewrite Hdry;
    [apply succeeds_ret|].
  apply succeeds_bind; [now apply succeeds_subprocess_run|intros; apply succeeds_ret].
Qed.

End CommandsSucceed.

Lemma emit_strs (d : Dict.t value) : Forall (fun v => is_str v = true) (flat_map emit d).
Proof.
  induction d as [|[k v] d IH]; [constructor|]. cbn [flat_map].
  apply Forall_app. split; [|exact IH].
  destruct v as [[]|n|s]; repeat constructor.
Qed.

Lemma strs_ok (l : list value) :
  Forall (fun v => is_str v = true) l -> is_ok (Shlex.strs l) = true.
Proof.
  induction 1 as [|v l Hv _ IH]; [reflexivity|].
  destruct v; try discriminate. cbn [Shlex.strs].
  destruct (Shlex.strs l); [reflexivity|discriminate].
Qed.

Lemma join_ok (l : list value) :
  Forall (fun v => is_str v = true) l -> is_ok (Shlex.join l) = true.
Proof.
  intros H. apply strs_ok in H. unfold Shlex.join.
  destruct (Shlex.strs l); [reflexivity|discriminate].
Qed.

(** With a launchable configuration the command is built, and made of
    strings. *)
Lemma runner_cmd_strs abspath now host master_addr master_port nnodes node_rank
      nproc_per_node config :
  launchable config = true ->
  exists tokens,
    _get_runner_cmd abspath now host master_addr master_port nnodes node_rank
                    nproc_per_node config = Ok tokens /\
    Forall (fun v => is_str v = true) tokens.
Proof.
  unfold launchable. intros H.
  apply andb_prop in H as [H Hid]. apply andb_prop in H as [H Hbackend].
  apply andb_prop in H as [_ Hdir].
  unfold _get_runner_cmd.
  fold (log_dir_entry config) (rdzv_id_entry config) (backend_entry config).
  destruct (log_dir_entry config) as [| |dir]; try discriminate. cbn [Path.fspath obind].
  destruct (backend_entry config) as [| |backend]; try discriminate.
  destruct (eqv (VStr backend) (VStr "torchrun")).
  - cbn [obind]. eexists. split; [reflexivity|].
    constructor; [reflexivity|apply emit_strs].
  - destruct (rdzv_id_entry config) as [| |rid]; try discriminate. cbn [Path.fspath obind].
    eexists. split; [reflexivity|].
    constructor; [reflexivity|apply emit_strs].
Qed.

Lemma succeeds_generate_run_script root config host node_rank cmd background with_test :
  succeeds (_generate_run_script root config host node_rank cmd background with_test).
Proof. unfold _generate_run_script. auto with succeeds. Qed.

Lemma succeeds_strftime_now env : succeeds (strftime_now env).
Proof. unfold strftime_now. auto with succeeds. Qed.

Lemma succeeds_get_free_port env : succeeds (get_free_port env).
Proof. unfold get_free_port. auto with succeeds. Qed.

#[local] Hint Resolve succeeds_generate_run_script succeeds_strftime_now
  succeeds_get_free_port succeeds_run_local_command succeeds_run_ssh_command
  succeeds_run_scp_command : succeeds.

Lemma succeeds_run_each env self p host master_addr master_port nnodes node_rank
      nproc_per_node with_test dryrun :
  launchable (config self) = true ->
  dryrun = true \/ (forall n cmd, returncode (shell env n cmd) = 0) ->
  succeeds (_run_each env self p host master_addr master_port nnodes node_rank
                      nproc_per_node with_test dryrun).
Proof.
  intros Hcfg Hcmds. unfold _run_each.
  apply succeeds_bind; [apply succeeds_record|intros _].
  apply succeeds_bind; [apply succeeds_strftime_now|intros now].
  destruct (runner_cmd_strs (abspath env) now host master_addr master_port nnodes
              node_rank nproc_per_node (config self) Hcfg) as (tokens & -> & Htokens).
  apply succeeds_lift_bind; [reflexivity|intros ? [= <-]].
  apply succeeds_lift_bind.
  { apply join_ok. repeat (apply Forall_app; split); try assumption.
    - apply Forall_map. apply Forall_forall. now intros [k v] _.
    - now repeat constructor.
    - apply Forall_map. now apply Forall_forall. }
  intros cmd _.
  apply succeeds_bind; [apply succeeds_generate_run_script|intros script].
  auto 10 with succeeds.
Qed.

Lemma succeeds_run_host env self p num_visible_devices ip port nnodes with_test dryrun
      node_rank host info :
  launchable (config self) = true ->
  dryrun = true \/ (forall n cmd, returncode (shell env n cmd) = 0) ->
  succeeds (run_host env self p num_visible_devices ip port nnodes with_test dryrun
                     node_rank host info).
Proof.
  intros Hcfg Hcmds. unfold run_host.
  apply succeeds_lift_bind; [|intros; now apply succeeds_run_each].
  unfold launchable in Hcfg.
  apply andb_prop in Hcfg as [Hcfg _]. apply andb_prop in Hcfg as [Hcfg _].
  apply andb_prop in Hcfg as [Hcfg _]. apply andb_prop in Hcfg as [_ Hnproc].
  unfold _get_nproc_per_node.
  destruct (Dict.get "nproc_per_node" (runner (config self))) as [a|].
  - destruct (int a); [|discriminate]. cbn [obind].
    now destruct (known num_visible_devices).
  - now destruct (known num_visible_devices).
Qed.

Lemma succeeds_for_hosts {V} (nnodes : Z) (body : Z -> string -> V -> M unit)
      (items : Dict.t V) (start : Z) :
  (forall node_rank host info, succeeds (body node_rank host info)) ->
  succeeds (for_hosts nnodes body start items).
Proof.
  intros Hbody. revert start.
  induction items as [|[host info] rest IH]; intros start; cbn [for_hosts].
  - apply succeeds_ret.
  - destruct (start >=? nnodes); [apply succeeds_ret|].
    apply succeeds_bind; [apply Hbody|intros _; apply IH].
Qed.

Lemma succeeds_bind_post {A B} (m : M A) (f : A -> M B) (P : A -> Prop) :
  (forall w, exists a w', m w = (Ok a, w') /\ P a) ->
  (forall a, P a -> succeeds (f a)) ->
  succeeds (bind m f).
Proof.
  intros Hm Hf w. unfold bind. destruct (Hm w) as (a & w' & -> & Ha). now apply Hf.
Qed.

Lemma launchable_task (config : Config) :
  launchable config = true ->
  task_type config = "train" /\ task_backend config = "megatron" /\
  is_ok (count_visible_devices (envs config)) = true.
Proof.
  unfold launchable. rewrite !andb_true_iff, !String.eqb_eq. tauto.
Qed.

Lemma prepare_ok env self w :
  launchable (config self) = true ->
  exists p w', _prepare env self w = (Ok p, w') /\ user_envs p = envs (config self).
Proof.
  intros Hcfg. apply launchable_task in Hcfg as (Htype & Hbackend & _).
  unfold _prepare, get_megatron_args. rewrite Htype, Hbackend.
  eexists. eexists. split; reflexivity.
Qed.

(** [run] completes with a launchable configuration, a node count that
    can be negotiated and commands that succeed. *)
Lemma run_succeeds env self table with_test dryrun :
  resources self = Some table -> table <> [] ->
  launchable (config self) = true ->
  is_ok (negotiated (config self) table) = true ->
  dryrun = true \/ (forall n cmd, returncode (shell env n cmd) = 0) ->
  succeeds (run env self with_test dryrun).
Proof.
  intros Hres Hne Hcfg Hnn Hcmds. unfold run. rewrite Hres.
  apply (succeeds_bind_post _ _ (fun p => user_envs p = envs (config self)));
    [intros w; now apply prepare_ok|intros p ->].
  apply succeeds_lift_bind; [now apply launchable_task in Hcfg|intros num _].
  unfold negotiated in Hnn. unfold Dict.keys. rewrite length_map.
  apply succeeds_lift_bind; [exact Hnn|intros nnodes _].
  apply succeeds_lift_bind; [now destruct table as [|[h i] t]|intros ip _].
  apply succeeds_bind; [apply succeeds_get_free_port|intros port].
  apply succeeds_for_hosts. intros node_rank host info.
  now apply succeeds_run_host.
Qed.

(** C1. [run] over a resource table enters [_run_each] for the hosts of
    the table in line order, each with its zero-based rank, and for no
    host whose rank reaches the negotiated [nnodes]: the hosts entered
    are the first [k] of the table with [k] at most [nnodes].  When
    [run] completes they are exactly the hosts of rank 0 to
    [nnodes - 1]; and [run] does complete when the configuration is
    launchable, the table is not empty and the commands succeed.  When
    no node count can be negotiated no host is entered. *)
Theorem run_dispatches_in_rank_order (env : Env) (self : SSHRunner)
        (table : ResourceTable) (with_test dryrun : bool) (w : world) :
  resources self = Some table ->
  let result := run env self with_test dryrun w in
  exists k : nat,
    dispatched (trace (snd result)) = (dispatched (trace w) ++ take k (ranked 0 table))%list /\
    (forall nnodes, negotiated (config self) table = Ok nnodes ->
       nnodes <= Z.of_nat (length table) /\
       Z.of_nat k <= Z.max 0 nnodes /\
       (fst result = Ok tt -> Z.of_nat k = Z.max 0 nnodes)) /\
    (is_ok (negotiated (config self) table) = false -> k = 0%nat) /\
    (launchable (config self) = true -> table <> [] ->
     is_ok (negotiated (config self) table) = true ->
     dryrun = true \/ (forall n cmd, returncode (shell env n cmd) = 0) ->
     fst result = Ok tt).
Proof.
  intros Hres. cbv zeta.
  destruct (run_dispatches env self table with_test dryrun Hres w) as (k & Hk & Hle & Hfull).
  exists k. split; [exact Hk|]. split; [|split].
  - intros nnodes Hnn. rewrite Hnn in Hle, Hfull.
    apply get_nnodes_le in Hnn. split; [exact Hnn|]. split; [lia|].
    intros Hok. rewrite Hok in Hfull. specialize (Hfull eq_refl). lia.
  - intros Hno. destruct (negotiated (config self) table); [discriminate|lia].
  - intros Hcfg Hne Hnn Hcmds.
    pose proof (run_succeeds env self table with_test dryrun Hres Hne Hcfg Hnn Hcmds w) as Hok.
    destruct (fst (run env self with_test dryrun w)) as [[]|]; [reflexivity|discriminate].
Qed.

Lemma run_dispatches_in_rank_order_witness :
  let result := run env_ex runner_ex false false world_ex in
  dispatched (trace (snd result)) = [("worker0", VInt 0); ("worker1", VInt 1)] /\
  fst result = Ok tt.
Proof.
  cbv zeta.
  destruct (run_dispatches_in_rank_order env_ex runner_ex table_ex false false
              world_ex eq_refl) as (k & Hk & Hnn & _ & Hok).
  assert (Hrun : fst (run env_ex runner_ex false false world_ex) = Ok tt).
  { apply Hok; [vm_compute; reflexivity|discriminate|vm_compute; reflexivity|
                right; reflexivity]. }
  assert (Hneg : negotiated (config runner_ex) table_ex = Ok 2)
    by (vm_compute; reflexivity).
  destruct (Hnn 2 Hneg) as (_ & _ & Hfull). specialize (Hfull Hrun).
  assert (k = 2%nat) as -> by lia.
  split; [exact Hk|exact Hrun].
Defined.

Example five_hosts_two_nodes :
  let table := [("h0", ResourceInfo 8 None); ("h1", ResourceInfo 8 None);
                ("h2", ResourceInfo 8 None); ("h3", ResourceInfo 8 None);
                ("h4", ResourceInfo 8 None)] in
  let self := {| config := config_ex; resources := Some table |} in
  negotiated config_ex table = Ok 2 /\
  dispatched (trace (snd (run env_ex self false true world_ex))) =
  [("h0", VInt 0); ("h1", VInt 1)].
Proof. split; vm_compute; reflexivity. Qed.

Example run_ex_trace :
  (fst run_ex, trace (snd run_ex)) =
  (Ok tt,
   [Call_run_each "worker0" (VInt 0);
    Spawn "ssh -f -n -p 22 worker0 'mkdir -p /exp/logs/scripts'";
    Spawn "ssh -f -n -p 22 worker0 'bash /exp/logs/scripts/host_0_worker0_run.sh'";
    Call_run_each "worker1" (VInt 1);
    Spawn "ssh -f -n -p 22 worker1 'mkdir -p /exp/logs/scripts'";
    Spawn "ssh -f -n -p 22 worker1 'bash /exp/logs/scripts/host_1_worker1_run.sh'"]).
Proof. vm_compute. reflexivity. Qed.

Example run_script_ex :
  option_map content (files (snd run_ex) !! "/exp/logs/scripts/host_1_worker1_run.sh") =
  Some ("#!/bin/bash" ++ nl ++ nl ++ nl ++
        "mkdir -p /exp/checkpoints" ++ nl ++
        "mkdir -p /exp/checkpoints" ++ nl ++
        "mkdir -p /exp/logs" ++ nl ++
        "mkdir -p /exp/logs/pids" ++ nl ++
        "mkdir -p /exp/logs/details" ++ nl ++
        "mkdir -p /exp/tensorboard" ++ nl ++
        "mkdir -p /exp/wandb" ++ nl ++ nl ++
        "cd /repo" ++ nl ++ nl ++
        "export PYTHONPATH=/repo/megatron:/repo" ++ nl ++ nl ++
        "cmd=" ++ chr DQ ++
        "CUDA_VISIBLE_DEVICES=0,1,2,3 torchrun --nnodes 1 --no_python " ++
        "--rdzv_id default --node_rank 0 --nproc_per_node 4 --rdzv_backend c10d " ++
        "--rdzv_endpoint localhost:2980 --log_dir /exp/logs/details/host_0_worker1/T " ++
        "--redirects 3 --tee 3 train.py --lr 0.1" ++ chr DQ ++ nl ++ nl ++
        "nohup bash -c " ++ chr DQ ++ "$cmd" ++ chr DQ ++
        " >> /exp/logs/host_1_worker1.output 2>&1 & echo $! > " ++
        "/exp/logs/pids/host_1_worker1.pid" ++ nl ++ nl).
Proof. vm_compute. reflexivity. Qed.

Example stop_ex :
  trace (snd (stop env_ex runner_ex world_ex)) =
  [Call_stop_each "worker0" (VInt 0);
   Spawn "ssh -f -n -p 22 worker0 'mkdir -p /exp/logs/scripts'";
   Spawn "ssh -f -n -p 22 worker0 'bash /exp/logs/scripts/host_0_worker0_stop.sh'";
   Call_stop_each "worker1" (VInt 1);
   Spawn "ssh -f -n -p 22 worker1 'mkdir -p /exp/logs/scripts'";
   Spawn "ssh -f -n -p 22 worker1 'bash /exp/logs/scripts/host_1_worker1_stop.sh'"].
Proof. vm_compute. reflexivity. Qed.
